(** * SEFS: the semantic gravity loop, embedded and verified

    A shallow embedding of the backend of the self-organizing semantic
    file system (storage.py, file_ops.py, monitor.py, rag_engine.py,
    analyzer.py, main.py, config.py) together with the properties of its
    specification that concern the ingestion / clustering / reorganisation
    loop, and with further properties of the store, the file manager, the
    event handler, the chunk index, the clusterer and the HTTP handlers.

    Conventions of the embedding
    - Python [str] is [string], read as a sequence of ASCII characters.
    - The three process-wide dictionaries of main.py are insertion-ordered
      association lists ([dict]): the clusterer enumerates them, so their
      order is observable.
    - The SQLite table and the file system are finite maps ([gmap]) and the
      pending-move set is a finite set ([gset]): only membership and lookup
      are observable there.
    - Time is a logical clock counted in milliseconds; a sleeping thread is
      a record with its wake-up instant.
    - The embedding model, DBSCAN and KeyBERT are external collaborators
      and appear as the fields of the class [Externals]. *)

From Stdlib Require Import QArith Qabs Qminmax DecimalString DecimalPos DecimalZ Ascii String.
From stdpp Require Import gmap strings list fin_maps.


(** ** Python string primitives (ASCII) *)
Module Py.

(** [str.isspace] on one ASCII character. *)
Definition is_space (c : ascii) : bool :=
  let n := nat_of_ascii c in
  ((9 <=? n) && (n <=? 13)) || ((28 <=? n) && (n <=? 32)).

Definition is_upper (c : ascii) : bool :=
  let n := nat_of_ascii c in (65 <=? n) && (n <=? 90).

Definition is_lower (c : ascii) : bool :=
  let n := nat_of_ascii c in (97 <=? n) && (n <=? 122).

Definition to_lower (c : ascii) : ascii :=
  if is_upper c then ascii_of_nat (nat_of_ascii c + 32) else c.

Definition to_upper (c : ascii) : ascii :=
  if is_lower c then ascii_of_nat (nat_of_ascii c - 32) else c.

Fixpoint map_chars (f : ascii → ascii) (s : string) : string :=
  match s with
  | EmptyString => EmptyString
  | String c r => String (f c) (map_chars f r)
  end.

(** [s.lower()] *)
Definition lower : string → string := map_chars to_lower.

(** [s.replace(a, b)] for single characters. *)
Definition replace_char (a b : ascii) : string → string :=
  map_chars (λ c, if Ascii.eqb c a then b else c).

(** [s.title()]: a letter is upper-cased when the previous character is
    not a letter and lower-cased otherwise. *)
Fixpoint title_go (prev_cased : bool) (s : string) : string :=
  match s with
  | EmptyString => EmptyString
  | String c r =>
      let cased := is_upper c || is_lower c in
      String (if cased then (if prev_cased then to_lower c else to_upper c) else c)
             (title_go cased r)
  end.
Definition title : string → string := title_go false.

(** [s.startswith(p)] *)
Fixpoint startswith (s p : string) : bool :=
  match p, s with
  | EmptyString, _ => true
  | String _ _, EmptyString => false
  | String a p', String b s' => Ascii.eqb a b && startswith s' p'
  end.

(** [s.endswith(p)] *)
Definition endswith (s p : string) : bool :=
  startswith (String.rev s) (String.rev p).

(** [sub in s] *)
Fixpoint contains (s sub : string) : bool :=
  startswith s sub ||
  match s with
  | EmptyString => false
  | String _ r => contains r sub
  end.

Fixpoint lstrip (s : string) : string :=
  match s with
  | EmptyString => EmptyString
  | String c r => if is_space c then lstrip r else s
  end.

(** [s.strip()]: leading and trailing whitespace removed, the interior
    kept as it is. *)
Definition strip (s : string) : string :=
  String.rev (lstrip (String.rev (lstrip s))).

(** [len(s)] *)
Definition len (s : string) : nat := String.length s.

(** [s.split()]: the maximal runs of non-whitespace characters. *)
Fixpoint split_go (cur : option string) (s : string) : list string :=
  match s with
  | EmptyString => option_list (String.rev <$> cur)
  | String c r =>
      if is_space c
      then option_list (String.rev <$> cur) ++ split_go None r
      else split_go (Some (String c (default EmptyString cur))) r
  end.
Definition split : string → list string := split_go None.

(** [sep.join(parts)] *)
Fixpoint join (sep : string) (parts : list string) : string :=
  match parts with
  | [] => EmptyString
  | [p] => p
  | p :: rest => p +:+ sep +:+ join sep rest
  end.

(** [str(n)] for an integer. *)
Definition str_of_int (n : Z) : string := NilZero.string_of_int (Z.to_int n).

(** [range(0, stop, step)] for a positive step; every index is below
    [stop], so [stop] iterations of fuel are enough. *)
Fixpoint range_from (fuel i stop step : nat) : list nat :=
  match fuel with
  | O => []
  | S fuel' => if i <? stop then i :: range_from fuel' (i + step) stop step else []
  end.
Definition range_step (stop step : nat) : list nat := range_from stop 0 stop step.

(** [l[i:j]] for [0 <= i <= j]. *)
Definition slice {A} (l : list A) (i j : nat) : list A := take (j - i) (drop i l).

End Py.

(** ** os.path on strings

    The deployment root of config.py is a Windows path, so both slashes
    separate components and [join] inserts a backslash.  Drive letters are
    not split off: this matters only for paths whose second component
    carries a drive of its own, which the system never builds. *)
Module OsPath.

Definition is_sep (c : ascii) : bool :=
  Ascii.eqb c "/"%char || Ascii.eqb c "\"%char.

Definition not_sep (c : ascii) : bool := negb (is_sep c).

Fixpoint take_while {A} (p : A → bool) (l : list A) : list A :=
  match l with
  | [] => []
  | x :: r => if p x then x :: take_while p r else []
  end.

Fixpoint drop_while {A} (p : A → bool) (l : list A) : list A :=
  match l with
  | [] => []
  | x :: r => if p x then drop_while p r else l
  end.

(** The characters after the last separator. *)
Definition basename_chars (l : list ascii) : list ascii :=
  rev (take_while not_sep (rev l)).

(** The characters before the last separator, trailing separators
    stripped unless nothing else would be left. *)
Definition dirname_chars (l : list ascii) : list ascii :=
  let head := rev (drop_while not_sep (rev l)) in
  let stripped := rev (drop_while is_sep (rev head)) in
  match stripped with [] => head | _ => stripped end.

Definition join_chars (a b : list ascii) : list ascii :=
  match b with
  | c :: _ => if is_sep c then b else
      match last a with
      | Some d => if is_sep d then a ++ b else a ++ "\"%char :: b
      | None => b
      end
  | [] =>
      match last a with
      | Some d => if is_sep d then a else a ++ ["\"%char]
      | None => []
      end
  end.

Definition basename (p : string) : string :=
  string_of_list_ascii (basename_chars (list_ascii_of_string p)).

Definition dirname (p : string) : string :=
  string_of_list_ascii (dirname_chars (list_ascii_of_string p)).

Definition join (a b : string) : string :=
  string_of_list_ascii (join_chars (list_ascii_of_string a) (list_ascii_of_string b)).

End OsPath.

(** ** Python parsing primitives used by the HTTP handlers *)
Module PyParse.

(** [s.rsplit(sep, 1)] for a separator of one character: the text itself
    when the separator does not occur, otherwise what precedes and what
    follows its last occurrence. *)
Definition rsplit_once (sep : ascii) (s : string) : list string :=
  let other c := negb (Ascii.eqb c sep) in
  let reversed := rev (list_ascii_of_string s) in
  match OsPath.drop_while other reversed with
  | [] => [s]
  | _ :: before => [string_of_list_ascii (rev before);
                    string_of_list_ascii (rev (OsPath.take_while other reversed))]
  end.

Definition digit_of (c : ascii) : option Z :=
  let n := nat_of_ascii c in
  if (48 <=? n) && (n <=? 57) then Some (Z.of_nat (n - 48)) else None.

Fixpoint digits_value (acc : Z) (digits : list ascii) : option Z :=
  match digits with
  | [] => Some acc
  | c :: rest =>
      match digit_of c with
      | Some d => digits_value (10 * acc + d) rest
      | None => None
      end
  end.

(** [int(s)] on ASCII text without underscores: surrounding whitespace is
    ignored, one sign may precede the digits, and there is at least one
    digit.  [None] stands for [ValueError]. *)
Definition int_of_str (s : string) : option Z :=
  match list_ascii_of_string (Py.strip s) with
  | [] => None
  | c :: rest =>
      if Ascii.eqb c "-" then
        match rest with [] => None | _ => Z.opp <$> digits_value 0 rest end
      else if Ascii.eqb c "+" then
        match rest with [] => None | _ => digits_value 0 rest end
      else digits_value 0 (c :: rest)
  end.

End PyParse.

(** Two proof steps on decimal digits: the value of a digit given as a
    literal, and the case of a numeral that starts with a given digit. *)
Ltac eval_digit :=
  match goal with
  | |- context [PyParse.digit_of ?c] =>
      let v := eval vm_compute in (PyParse.digit_of c) in
      change (PyParse.digit_of c) with v; cbv iota beta
  end.

Ltac uint_case Hdigits Hvalue :=
  eexists _, _; split; [reflexivity|]; split; [exact Hdigits | exact Hvalue].

(** ** Insertion-ordered dictionaries

    A Python [dict] keeps its keys in insertion order; assigning to a key
    that is present keeps its position, assigning to a new key appends. *)
Abbreviation dict K V := (list (K * V)).

Section Dict.
Context {K V : Type} `{EqDecision K}.

Definition keys (d : dict K V) : list K := d.*1.

Definition values (d : dict K V) : list V := d.*2.

(** [d.get(k)] *)
Fixpoint dget (k : K) (d : dict K V) : option V :=
  match d with
  | [] => None
  | (k', v) :: r => if decide (k' = k) then Some v else dget k r
  end.

(** [k in d] *)
Definition dmem (k : K) (d : dict K V) : bool := bool_decide (k ∈ keys d).

(** [d[k] = v] *)
Fixpoint dset (k : K) (v : V) (d : dict K V) : dict K V :=
  match d with
  | [] => [(k, v)]
  | (k', v') :: r => if decide (k' = k) then (k, v) :: r else (k', v') :: dset k v r
  end.

(** [del d[k]] for a key that may be absent. *)
Definition ddel (k : K) (d : dict K V) : dict K V := filter (λ kv, kv.1 ≠ k) d.

(** [d.pop(k, None)] *)
Definition dpop (k : K) (d : dict K V) : option V * dict K V := (dget k d, ddel k d).

(** [{k: v for k, v in d.items() if p(k)}] *)
Definition dfilter (p : K → bool) (d : dict K V) : dict K V := filter (λ kv, p kv.1 = true) d.

End Dict.

(** ** config.py *)
Module Config.
Definition MONITOR_ROOT : string := "F:\vibecode\sefs_root".
Definition CLUSTER_EPS : Q := 6 # 10.
Definition CLUSTER_MIN_SAMPLES : nat := 1.
Definition METADATA_DIR : string := ".sefs_metadata".
Definition CHUNK_SIZE : nat := 400.
Definition CHUNK_OVERLAP : nat := 50.
Definition TOP_K_CHUNKS : nat := 5.
End Config.

(** ** The world outside the process *)

(** An embedding vector; the components are idealised as rationals. *)
Definition Embedding := list Q.

(** A file on disk: its modification time in seconds and the text the
    extractor obtains from it ([None] when extraction fails or yields
    nothing, see [ContentAnalyzer.extract_text], which swallows every
    error).  Directories are not part of the model: no property below
    observes them. *)
Record File := mkFile { f_mtime : Q; f_text : option string }.

Abbreviation Disk := (gmap string File).

(** Logical time in milliseconds. *)
Definition Millis := nat.

(** The external collaborators.  [None] stands for a raised exception. *)
Class Externals := {
  (** [SentenceTransformer.encode] *)
  encode : string → option Embedding;
  (** [DBSCAN(eps, min_samples, metric='cosine').fit(X).labels_] *)
  dbscan : Q → nat → list Embedding → list Z;
  dbscan_length : ∀ eps m X, length (dbscan eps m X) = length X;
  (** [KeyBERT.extract_keywords], scores dropped *)
  extract_keywords : string → option (list string)
}.

(** Calls that cross a component boundary, recorded in program order. *)
Inductive Call :=
  | CallRecluster
  | CallSafeMove (src dst : string)
  | CallStoreSave (path : string)
  | CallStoreUpdateCluster (path : string)
  | CallStoreMove (src dst : string)
  | CallStoreDelete (path : string)
  | CallRagAdd (path : string)
  | CallRagRemove (path : string)
  | CallRagUpdate (path : string).

Global Instance Call_eq_dec : EqDecision Call.
Proof. solve_decision. Defined.

(** ** storage.py *)
Module Storage.

(** One row of the table [file_embeddings]; the embedding column holds
    the JSON text of the vector, which decodes to the vector itself. *)
Record Row := mkRow {
  r_embedding : Embedding;
  r_content : string;
  r_last_modified : Q;
  r_cluster_id : Z;
  r_topic_label : string
}.

Abbreviation Store := (gmap string Row).

(** [INSERT OR REPLACE] with [cluster_id = -1] and an empty label unless
    given. *)
Definition save_embedding (filepath : string) (embedding : Embedding)
    (content : string) (last_modified : Q) (cluster_id : Z)
    (topic_label : string) (db : Store) : Store :=
  <[filepath := mkRow embedding content last_modified cluster_id topic_label]> db.

(** [abs(current_mtime - stored_mtime) > 1.0] *)
Definition stale (current_mtime stored_mtime : Q) : bool :=
  negb (Qle_bool (Qabs (current_mtime - stored_mtime)) 1).

Definition get_embedding (filepath : string) (fs : Disk) (db : Store)
    : option (Embedding * string * Q) :=
  match fs !! filepath with
  | None => None
  | Some file =>
      let current_mtime := f_mtime file in
      match db !! filepath with
      | None => None
      | Some row =>
          if stale current_mtime (r_last_modified row) then None
          else Some (r_embedding row, r_content row, r_last_modified row)
      end
  end.

(** [UPDATE ... SET cluster_id = ?, topic_label = ? WHERE filepath = ?] *)
Definition update_cluster (filepath : string) (cluster_id : Z)
    (topic_label : string) (db : Store) : Store :=
  alter (λ row, mkRow (r_embedding row) (r_content row) (r_last_modified row)
                      cluster_id topic_label) filepath db.

(** [DELETE FROM file_embeddings WHERE filepath = ?] *)
Definition delete_embedding (filepath : string) (db : Store) : Store :=
  delete filepath db.

(** [UPDATE ... SET filepath = dest WHERE filepath = src]; the primary
    key makes the statement fail ([None]) when another row already sits
    at [dest]. *)
Definition move_embedding (src dest : string) (db : Store) : option Store :=
  match db !! src with
  | None => Some db
  | Some row =>
      if decide (src = dest) then Some db
      else match db !! dest with
           | Some _ => None
           | None => Some (<[dest := row]> (delete src db))
           end
  end.

(** A row as a cache entry for [filepath]: it counts when the file is on
    disk with a modification time within the tolerance. *)
Definition fresh_row (fs : Disk) (filepath : string) (row : Row) : option Row :=
  match fs !! filepath with
  | None => None
  | Some file => if stale (f_mtime file) (r_last_modified row) then None else Some row
  end.

(** One iteration of the loop of [load_all_embeddings] over the fetched
    rows: a row whose file is gone or was modified is skipped. *)
Definition load_step (fs : Disk) (acc : dict string Embedding * dict string string)
    (entry : string * Row) : dict string Embedding * dict string string :=
  let '(embeddings, contents) := acc in
  let '(filepath, row) := entry in
  match fs !! filepath with
  | None => acc
  | Some file =>
      if stale (f_mtime file) (r_last_modified row) then acc
      else (dset filepath (r_embedding row) embeddings,
            dset filepath (r_content row) contents)
  end.

(** [load_all_embeddings]; the rows come in the order in which the table
    yields them. *)
Definition load_all_embeddings (fs : Disk) (db : Store)
    : dict string Embedding * dict string string :=
  foldl (load_step fs) ([], []) (map_to_list db).

(** The dictionary returned by [get_stats]. *)
Record Stats := mkStats {
  total_files : nat;
  total_clusters : nat;
  avg_content_length : nat
}.

(** [get_stats]: [COUNT( * )], [COUNT(DISTINCT cluster_id)] over the rows
    with a cluster, and the integer part of [AVG(length(content))], which
    is [0] on an empty table. *)
Definition get_stats (db : Store) : Stats :=
  let rows := (map_to_list db).*2 in
  let clustered := filter (λ cluster_id, cluster_id ≠ (-1)%Z) (r_cluster_id <$> rows) in
  mkStats (length rows)
          (size (list_to_set clustered : gset Z))
          (match rows with
           | [] => 0
           | _ => sum_list (Py.len ∘ r_content <$> rows) / length rows
           end).

End Storage.

(** ** file_ops.py *)
Module FileOps.

(** The background thread started by a successful [safe_move]: it sleeps
    and then discards both paths. *)
Record Sleeper := mkSleeper { wake_at : Millis; s_dst : string; s_src : string }.

Record FileManager := mkFM {
  root_dir : string;
  pending_moves : gset string;
  sleepers : list Sleeper
}.

(** [time.sleep(2)] *)
Definition SETTLE : Millis := 2000.

(** What [safe_move] did, in program order. *)
Inductive Step :=
  | AddPending (p : string)
  | DiscardPending (p : string)
  | Rename (src dst : string)
  | RenameFailed (src dst : string)
  | StartSleeper (wake : Millis).

(** [shutil.move]: fails when the source is missing, replaces the
    destination otherwise. *)
Definition shutil_move (src dst : string) (fs : Disk) : option Disk :=
  match fs !! src with
  | None => None
  | Some file => Some (<[dst := file]> (delete src fs))
  end.

(** [safe_move] at the instant [now].  The creation of the destination
    directory and the removal of an emptied source directory act on
    directories only and are left out; a failing rename takes the
    exception path. *)
Definition safe_move (now : Millis) (src dst : string) (fm : FileManager) (fs : Disk)
    : FileManager * Disk * list Step :=
  if decide (src = dst) then (fm, fs, [])
  else
    let pending1 := {[src]} ∪ ({[dst]} ∪ pending_moves fm) in
    match shutil_move src dst fs with
    | Some fs' =>
        (mkFM (root_dir fm) pending1
              (sleepers fm ++ [mkSleeper (now + SETTLE) dst src]),
         fs',
         [AddPending dst; AddPending src; Rename src dst; StartSleeper (now + SETTLE)])
    | None =>
        (mkFM (root_dir fm) ((pending1 ∖ {[dst]}) ∖ {[src]}) (sleepers fm),
         fs,
         [AddPending dst; AddPending src; RenameFailed src dst;
          DiscardPending dst; DiscardPending src])
    end.

Definition is_system_operation (path : string) (fm : FileManager) : bool :=
  bool_decide (path ∈ pending_moves fm).

(** A sleeper that wakes up runs the body of [clear_pending]. *)
Definition run_sleeper (s : Sleeper) (pending : gset string) : gset string :=
  (pending ∖ {[s_dst s]}) ∖ {[s_src s]}.

(** The clock reaches [now]: every sleeper that is due runs, the others
    keep sleeping. *)
Definition advance (now : Millis) (fm : FileManager) : FileManager :=
  let due := filter (λ s, wake_at s ≤ now) (sleepers fm) in
  let waiting := filter (λ s, ¬ wake_at s ≤ now) (sleepers fm) in
  mkFM (root_dir fm) (foldr run_sleeper (pending_moves fm) due) waiting.

End FileOps.

(** ** monitor.py *)
Module Monitor.

(** A watchdog event.  Only move events carry a destination. *)
Inductive EventKind :=
  | Created
  | Modified
  | Deleted
  | Moved (dest_path : string)
  | OtherKind.

Record Event := mkEvent {
  is_directory : bool;
  src_path : string;
  kind : EventKind
}.

(** [hasattr(event, 'dest_path')] and its value. *)
Definition dest_of (e : Event) : option string :=
  match kind e with Moved d => Some d | _ => None end.

(** What the handler passes to its callback: main.py accepts one event or
    a list of events. *)
Inductive CallbackArg :=
  | OneEvent (e : Event)
  | EventList (es : list Event).

Record SEFSHandler := mkHandler {
  event_queue : list Event;
  (** the deadline of the armed debounce timer *)
  debounce_timer : option Millis
}.

Definition debounce_seconds : Millis := 2000.

(** The path filter on the metadata directory and the database
    side files. *)
Definition is_metadata (path : string) : bool :=
  Py.contains path ".sefs_metadata"
  || Py.endswith path ".db-journal" || Py.endswith path ".db-wal".

Definition on_any_event (now : Millis) (fm : FileOps.FileManager) (event : Event)
    (h : SEFSHandler) : SEFSHandler :=
  if is_directory event then h
  else if is_metadata (src_path event) then h
  else if from_option is_metadata false (dest_of event) then h
  else if FileOps.is_system_operation (src_path event) fm then h
  else if from_option (λ d, FileOps.is_system_operation d fm) false (dest_of event) then h
  else mkHandler (event_queue h ++ [event]) (Some (now + debounce_seconds)).

(** The [while self.event_queue] loop: [unique_events[event.src_path] = event]. *)
Definition deduplicate (queue : list Event) : dict string Event :=
  foldl (λ unique event, dset (src_path event) event unique) [] queue.

(** [_process_queue]: the emptied handler and the callback invocations
    it made, in order. *)
Definition _process_queue (h : SEFSHandler) : SEFSHandler * list CallbackArg :=
  match event_queue h with
  | [] => (h, [])
  | _ =>
      let unique_events := deduplicate (event_queue h) in
      (mkHandler [] (debounce_timer h), OneEvent <$> values unique_events)
  end.

(** The debounce timer thread. *)
Definition timer_expires (now : Millis) (h : SEFSHandler) : SEFSHandler * list CallbackArg :=
  match debounce_timer h with
  | Some deadline =>
      if deadline <=? now
      then let '(h', calls) := _process_queue h in
           (mkHandler (event_queue h') None, calls)
      else (h, [])
  | None => (h, [])
  end.

(** The last event of the queue on the source path [path]. *)
Definition last_event_for (path : string) (queue : list Event) : option Event :=
  last (filter (λ e, src_path e = path) queue).

(** The dictionary built by the drain loop is keyed by the source path of
    the event it holds. *)
Definition keyed_by_source (unique : dict string Event) : Prop :=
  ∀ k e, (k, e) ∈ unique → k = src_path e.

(** The states of a handler during a run: it starts with an empty queue
    and no timer; the observer thread then reports events, each at some
    instant and with the file manager as it is at that instant, and the
    timer thread looks at the clock. *)
Inductive handling : SEFSHandler → Prop :=
  | handling_start : handling (mkHandler [] None)
  | handling_event now fm event h :
      handling h → handling (on_any_event now fm event h)
  | handling_timer now h :
      handling h → handling (timer_expires now h).1.

(** The events that the first three tests of [on_any_event] let
    through: no directory, and neither path in the metadata folder or a
    database side file. *)
Definition of_interest (event : Event) : bool :=
  negb (is_directory event)
  && negb (is_metadata (src_path event))
  && negb (from_option is_metadata false (dest_of event)).

End Monitor.

(** ** rag_engine.py: the chunk index *)
Module Rag.

Record ChunkMeta := mkMeta {
  m_filepath : string;
  m_filename : string;
  m_chunk_index : nat;
  m_word_count : nat;
  m_cluster : option (Z * string)
}.

Record Chunk := mkChunk {
  c_id : string;
  c_document : string;
  c_embedding : Embedding;
  c_meta : ChunkMeta
}.

(** The ChromaDB collection, in insertion order. *)
Abbreviation Collection := (list Chunk).

Definition stride : nat := Config.CHUNK_SIZE - Config.CHUNK_OVERLAP.

(** The word windows [words[i : i + CHUNK_SIZE]] visited by the loop of
    [chunk_text], before any of them is skipped. *)
Definition windows (words : list string) : list (list string) :=
  (λ i, Py.slice words i (i + Config.CHUNK_SIZE)) <$> Py.range_step (length words) stride.

(** One iteration of the loop of [chunk_text]. *)
Definition chunk_step (filepath : string) (chunks : list (string * ChunkMeta))
    (chunk_words : list string) : list (string * ChunkMeta) :=
  let chunk_text := Py.join " " chunk_words in
  if Py.len (Py.strip chunk_text) <? 50 then chunks
  else chunks ++ [(chunk_text,
                   mkMeta filepath (OsPath.basename filepath) (length chunks)
                          (length chunk_words) None)].

Definition chunk_text (text filepath : string) : list (string * ChunkMeta) :=
  foldl (chunk_step filepath) [] (windows (Py.split text)).

(** [collection.get(where={"filepath": filepath})] then [delete]. *)
Definition remove_document (filepath : string) (col : Collection) : Collection :=
  filter (λ c, m_filepath (c_meta c) ≠ filepath) col.

Definition with_cluster (cluster : Z * string) (m : ChunkMeta) : ChunkMeta :=
  mkMeta (m_filepath m) (m_filename m) (m_chunk_index m) (m_word_count m) (Some cluster).

Definition chunk_id (filepath : string) (i : nat) : string :=
  filepath +:+ "__chunk_" +:+ Py.str_of_int (Z.of_nat i).

(** [add_document]; an exception of the embedding model is swallowed
    after the old chunks are gone. *)
Definition add_document `{Externals} (filepath text : string) (cluster_id : Z)
    (topic_label : string) (col : Collection) : Collection :=
  let col := remove_document filepath col in
  let chunks := chunk_text text filepath in
  match chunks with
  | [] => col
  | _ =>
      match mapM (λ ch, encode ch.1) chunks with
      | None => col
      | Some embeddings =>
          col ++ imap (λ i '(ch, emb),
                         mkChunk (chunk_id filepath i) ch.1 emb
                                 (with_cluster (cluster_id, topic_label) ch.2))
                      (zip chunks embeddings)
      end
  end.

(** [update_cluster_info]: the two cluster fields of every chunk of the
    file are overwritten. *)
Definition update_cluster_info (filepath : string) (cluster_id : Z)
    (topic_label : string) (col : Collection) : Collection :=
  (λ c, if decide (m_filepath (c_meta c) = filepath)
        then mkChunk (c_id c) (c_document c) (c_embedding c)
                     (with_cluster (cluster_id, topic_label) (c_meta c))
        else c) <$> col.

(** [ceil(a / b)] on natural numbers. *)
Definition ceil_div (a b : nat) : nat := (a + (b - 1)) / b.

(** The chunking law in the words of the specification:
    [max(1, ceil((N - O) / (W - O)))]. *)
Definition chunking_law (N W O : Z) : Z := Z.max 1 (- ((- (N - O)) / (W - O)))%Z.

(** Every chunk carries an identifier that [add_document] builds from
    the path in its metadata. *)
Definition ids_by_path (col : Collection) : Prop :=
  Forall (λ c, ∃ i, c_id c = chunk_id (m_filepath (c_meta c)) i) col.

(** The collection is well keyed: no identifier occurs twice, and every
    identifier is built from the path of its chunk. *)
Definition well_keyed (col : Collection) : Prop :=
  NoDup (c_id <$> col) ∧ ids_by_path col.

(** What a chunk is apart from its cluster fields: identifier, text,
    vector, path, file name, index and word count. *)
Definition chunk_body (c : Chunk) : string * string * Embedding * (string * string * nat * nat) :=
  (c_id c, c_document c, c_embedding c,
   (m_filepath (c_meta c), m_filename (c_meta c), m_chunk_index (c_meta c),
    m_word_count (c_meta c))).

End Rag.

(** ** analyzer.py *)
Module Analyzer.

(** [extract_text] on a path that passed the eligibility filter of
    [process_file]: the extension is then [.txt] or [.pdf], and every
    failure yields [None]. *)
Definition extract_text (file_path : string) (fs : Disk) : option string :=
  fs !! file_path ≫= f_text.

Definition weak_words : list string :=
  ["like"; "consists"; "include"; "contains"; "called"; "known"].

Definition clean (keyword : string) : string :=
  Py.title (Py.replace_char " " "_" keyword).

Definition extract_topic_label `{Externals} (texts : list string) : string :=
  match texts with
  | [] => "Misc"
  | _ =>
      let combined_text := Py.join " " (take 3 texts) in
      match extract_keywords combined_text with
      | None => "Cluster"
      | Some [] => "General_Topic"
      | Some (keyword :: more) =>
          let topic := clean keyword in
          if existsb (λ weak, Py.contains (Py.lower topic) weak) weak_words
          then match more with
               | second :: _ => clean second
               | [] => "General_Topic"
               end
          else topic
      end
  end.

(** The first loop of [cluster_files_with_topics]: the texts of every
    non-noise cluster, clusters in order of first appearance. *)
Definition group_step (file_contents : dict string string)
    (cluster_docs : dict Z (list string)) (item : string * Z) : dict Z (list string) :=
  let '(fname, label) := item in
  if decide (label = (-1)%Z) then cluster_docs
  else
    let docs := default [] (dget label cluster_docs) in
    match dget fname file_contents with
    | Some text => dset label (docs ++ [text]) cluster_docs
    | None => dset label docs cluster_docs
    end.

(** The centroid memory is written and never read; it is left out. *)
Definition cluster_files_with_topics `{Externals}
    (file_embeddings : dict string Embedding) (file_contents : dict string string)
    (eps : Q) (min_samples : nat) : dict string (Z * string) :=
  let filenames := keys file_embeddings in
  let embeddings := values file_embeddings in
  let labels := dbscan eps min_samples embeddings in
  let cluster_docs := foldl (group_step file_contents) [] (zip filenames labels) in
  let cluster_labels : dict Z string :=
    (λ '(label, docs), (label, extract_topic_label docs)) <$> cluster_docs in
  (λ '(fname, label),
     (fname, (label, if decide (label = (-1)%Z) then "Uncategorized"
                     else default "Uncategorized" (dget label cluster_labels))))
    <$> zip filenames labels.

(** The texts of the files labelled [label], in the order of the
    enumeration; a file without a text contributes none. *)
Definition docs_of (file_contents : dict string string) (label : Z)
    (items : list (string * Z)) : list string :=
  omap (λ '(fname, l), if decide (l = label) then dget fname file_contents else None) items.

End Analyzer.

(** ** main.py *)
Module Main.
Import Monitor.

(** The process-wide state of main.py with the collaborators it owns,
    the disk, the clock and the record of cross-component calls. *)
Record State := mkState {
  file_embeddings : dict string Embedding;
  file_contents : dict string string;
  file_clusters : dict string (Z * string);
  storage : Storage.Store;
  rag_engine : Rag.Collection;
  file_manager : FileOps.FileManager;
  disk : Disk;
  clock : Millis;
  trace : list Call
}.

Definition with_embeddings (v : dict string Embedding) (s : State) : State :=
  mkState v (file_contents s) (file_clusters s) (storage s) (rag_engine s)
          (file_manager s) (disk s) (clock s) (trace s).
Definition with_contents (v : dict string string) (s : State) : State :=
  mkState (file_embeddings s) v (file_clusters s) (storage s) (rag_engine s)
          (file_manager s) (disk s) (clock s) (trace s).
Definition with_clusters (v : dict string (Z * string)) (s : State) : State :=
  mkState (file_embeddings s) (file_contents s) v (storage s) (rag_engine s)
          (file_manager s) (disk s) (clock s) (trace s).
Definition with_storage (v : Storage.Store) (s : State) : State :=
  mkState (file_embeddings s) (file_contents s) (file_clusters s) v (rag_engine s)
          (file_manager s) (disk s) (clock s) (trace s).
Definition with_rag (v : Rag.Collection) (s : State) : State :=
  mkState (file_embeddings s) (file_contents s) (file_clusters s) (storage s) v
          (file_manager s) (disk s) (clock s) (trace s).
Definition with_fm_disk (fm : FileOps.FileManager) (fs : Disk) (s : State) : State :=
  mkState (file_embeddings s) (file_contents s) (file_clusters s) (storage s)
          (rag_engine s) fm fs (clock s) (trace s).
Definition log (c : Call) (s : State) : State :=
  mkState (file_embeddings s) (file_contents s) (file_clusters s) (storage s)
          (rag_engine s) (file_manager s) (disk s) (clock s) (trace s ++ [c]).

(** *** Calls into the collaborators, each leaving its mark in the trace *)

Definition storage_save_embedding (filepath : string) (emb : Embedding)
    (content : string) (last_modified : Q) (s : State) : State :=
  log (CallStoreSave filepath)
      (with_storage (Storage.save_embedding filepath emb content last_modified (-1)
                                            EmptyString (storage s)) s).

Definition storage_update_cluster (filepath : string) (cluster_id : Z)
    (topic_label : string) (s : State) : State :=
  log (CallStoreUpdateCluster filepath)
      (with_storage (Storage.update_cluster filepath cluster_id topic_label (storage s)) s).

Definition storage_delete_embedding (filepath : string) (s : State) : State :=
  log (CallStoreDelete filepath)
      (with_storage (Storage.delete_embedding filepath (storage s)) s).

Definition rag_add_document `{Externals} (filepath text : string) (cluster_id : Z)
    (topic_label : string) (s : State) : State :=
  log (CallRagAdd filepath)
      (with_rag (Rag.add_document filepath text cluster_id topic_label (rag_engine s)) s).

Definition rag_remove_document (filepath : string) (s : State) : State :=
  log (CallRagRemove filepath) (with_rag (Rag.remove_document filepath (rag_engine s)) s).

Definition rag_update_cluster_info (filepath : string) (cluster_id : Z)
    (topic_label : string) (s : State) : State :=
  log (CallRagUpdate filepath)
      (with_rag (Rag.update_cluster_info filepath cluster_id topic_label (rag_engine s)) s).

Definition file_manager_safe_move (src dst : string) (s : State) : State :=
  let '(fm, fs, _) := FileOps.safe_move (clock s) src dst (file_manager s) (disk s) in
  log (CallSafeMove src dst) (with_fm_disk fm fs s).

(** *** process_file *)

Definition eligible (filepath : string) : bool :=
  negb (Py.startswith (OsPath.basename filepath) ".")
  && (Py.endswith filepath ".txt" || Py.endswith filepath ".pdf").

(** The condition [text and len(text.strip()) > 10]. *)
Definition long_enough (text : string) : bool :=
  negb (String.eqb text EmptyString) && (10 <? Py.len (Py.strip text)).

(** When [process_file] gives up on a text: there is none, or what is
    left after stripping the surrounding whitespace has at most ten
    characters. *)
Definition too_short (text : option string) : Prop :=
  match text with
  | None => True
  | Some t => Py.len (Py.strip t) ≤ 10
  end.

Global Instance too_short_dec text : Decision (too_short text).
Proof. destruct text; simpl; apply _. Defined.

(** How a call ends: with a result, or with an exception on its way
    up. *)
Inductive Outcome (A : Type) :=
  | Returned (result : A)
  | Raised.
Global Arguments Returned {A} result.
Global Arguments Raised {A}.

(** The body of the [try] of [process_file]. *)
Definition attempt `{Externals} (filepath : string) (s : State) : Outcome bool * State :=
  match Analyzer.extract_text filepath (disk s) with
  | Some text =>
      if long_enough text then
        match encode text with
        | None => (Raised, s)
        | Some emb =>
            let s := with_embeddings (dset filepath emb (file_embeddings s)) s in
            let s := with_contents (dset filepath text (file_contents s)) s in
            match disk s !! filepath with
            | None => (Raised, s)
            | Some file =>
                let s := storage_save_embedding filepath emb text (f_mtime file) s in
                let cluster_info := default ((-1)%Z, EmptyString) (dget filepath (file_clusters s)) in
                let s := rag_add_document filepath text cluster_info.1 cluster_info.2 s in
                (Returned true, s)
            end
        end
      else (Returned false, s)
  | None => (Returned false, s)
  end.

(** [for attempt in range(max_retries)] *)
Fixpoint retry `{Externals} (attempts : nat) (filepath : string) (s : State) : bool * State :=
  match attempts with
  | O => (false, s)
  | S n =>
      match attempt filepath s with
      | (Returned b, s') => (b, s')
      | (Raised, s') => retry n filepath s'
      end
  end.

Definition max_retries : nat := 3.

Definition process_file `{Externals} (filepath : string) (s : State) : bool * State :=
  if negb (eligible filepath) then (false, s)
  else
    match Storage.get_embedding filepath (disk s) (storage s) with
    | Some (embedding, content, _) =>
        let s := with_embeddings (dset filepath embedding (file_embeddings s)) s in
        let s := with_contents (dset filepath content (file_contents s)) s in
        (true, s)
    | None => retry max_retries filepath s
    end.

(** *** recluster_and_organize *)

Definition exists_on (fs : Disk) (path : string) : bool := bool_decide (is_Some (fs !! path)).

Definition folder_name (cluster_id : Z) (topic_label : string) : string :=
  topic_label +:+ "_" +:+ Py.str_of_int cluster_id.

Definition parent_name (filepath : string) : string :=
  OsPath.basename (OsPath.dirname filepath).

Definition target_path (filepath : string) (cluster_id : Z) (topic_label : string) : string :=
  OsPath.join (OsPath.join Config.MONITOR_ROOT (folder_name cluster_id topic_label))
              (OsPath.basename filepath).

(** One iteration of the loop over [new_clusters.items()]. *)
Definition organize_one (s : State) (item : string * (Z * string)) : State :=
  let '(filepath, (cluster_id, topic_label)) := item in
  if decide (cluster_id = (-1)%Z) then s
  else if decide (parent_name filepath = folder_name cluster_id topic_label) then
    let s := with_clusters (dset filepath (cluster_id, topic_label) (file_clusters s)) s in
    storage_update_cluster filepath cluster_id topic_label s
  else
    let target := target_path filepath cluster_id topic_label in
    if decide (filepath = target) then s
    else
      let '(emb, embs) := dpop filepath (file_embeddings s) in
      let '(content, conts) := dpop filepath (file_contents s) in
      let s := with_embeddings (from_option (λ e, dset target e embs) embs emb) s in
      let s := with_contents (from_option (λ c, dset target c conts) conts content) s in
      let s := with_clusters
                 (ddel filepath (dset target (cluster_id, topic_label) (file_clusters s))) s in
      let s := storage_update_cluster target cluster_id topic_label s in
      let s := rag_update_cluster_info target cluster_id topic_label s in
      file_manager_safe_move filepath target s.

(** The pruning of the three dictionaries to the files still on disk. *)
Definition prune (s : State) : State :=
  let existing_files := dfilter (exists_on (disk s)) (file_embeddings s) in
  let s := with_embeddings existing_files s in
  let s := with_contents (dfilter (λ k, dmem k existing_files) (file_contents s)) s in
  with_clusters (dfilter (λ k, dmem k existing_files) (file_clusters s)) s.

(** The clusterer as [recluster_and_organize] calls it. *)
Definition new_clusters `{Externals} (s : State) : dict string (Z * string) :=
  Analyzer.cluster_files_with_topics (file_embeddings s) (file_contents s)
                                     Config.CLUSTER_EPS Config.CLUSTER_MIN_SAMPLES.

(** The final sweep over empty folders touches directories only and is
    left out. *)
Definition recluster_and_organize `{Externals} (s : State) : State :=
  let s := log CallRecluster s in
  match file_embeddings s with
  | [] => with_clusters [] s
  | _ =>
      let s := prune s in
      match file_embeddings s with
      | [] => s
      | _ => foldl organize_one s (new_clusters s)
      end
  end.

(** *** process_files_batch

    The four workers are run one after the other, in submission order. *)
Definition batch_step `{Externals} (acc : nat * State) (filepath : string) : nat * State :=
  let '(completed, s) := acc in
  let '(result, s') := process_file filepath s in
  (if result then S completed else completed, s').

Definition run_workers `{Externals} (filepaths : list string) (s : State) : nat * State :=
  foldl batch_step (0, s) filepaths.

Definition process_files_batch `{Externals} (filepaths : list string) (s : State) : State :=
  let '(completed, s) := run_workers filepaths s in
  if 0 <? completed then recluster_and_organize s else s.

(** *** event_callback *)

(** [files_to_process] and [files_to_delete] *)
Record Plan := mkPlan { files_to_process : list string; files_to_delete : list string }.

(** One iteration of the loop over [events]; [None] when the store
    rejects the rename and the exception leaves the callback. *)
Definition plan_event `{Externals} (event : Event) (plan : Plan) (s : State)
    : option Plan * State :=
  if is_directory event then (Some plan, s)
  else
    let src := src_path event in
    match kind event with
    | Created | Modified =>
        if bool_decide (src ∉ files_to_process plan) && bool_decide (src ∉ files_to_delete plan)
        then (Some (mkPlan (files_to_process plan ++ [src]) (files_to_delete plan)), s)
        else (Some plan, s)
    | Moved dest =>
        if dmem src (file_embeddings s) then
          let s :=
            let '(emb, embs) := dpop src (file_embeddings s) in
            with_embeddings (from_option (λ e, dset dest e embs) embs emb) s in
          let s :=
            if dmem src (file_contents s) then
              let '(c, conts) := dpop src (file_contents s) in
              with_contents (from_option (λ c, dset dest c conts) conts c) s
            else s in
          let s :=
            if dmem src (file_clusters s) then
              let '(c, clus) := dpop src (file_clusters s) in
              with_clusters (from_option (λ c, dset dest c clus) clus c) s
            else s in
          match Storage.move_embedding src dest (storage s) with
          | None => (None, log (CallStoreMove src dest) s)
          | Some db =>
              let s := log (CallStoreMove src dest) (with_storage db s) in
              let s := rag_remove_document src s in
              let s := rag_add_document dest (default EmptyString (dget dest (file_contents s)))
                                        (-1) EmptyString s in
              (Some plan, s)
          end
        else (Some (mkPlan (files_to_process plan ++ [dest]) (files_to_delete plan)), s)
    | Deleted =>
        if bool_decide (src ∉ files_to_process plan)
        then (Some (mkPlan (files_to_process plan) (files_to_delete plan ++ [src])), s)
        else (Some plan, s)
    | OtherKind => (Some plan, s)
    end.

Fixpoint plan_events `{Externals} (events : list Event) (plan : Plan) (s : State)
    : option Plan * State :=
  match events with
  | [] => (Some plan, s)
  | event :: rest =>
      match plan_event event plan s with
      | (Some plan', s') => plan_events rest plan' s'
      | (None, s') => (None, s')
      end
  end.

(** One iteration of the loop over [files_to_delete]. *)
Definition delete_one `{Externals} (s : State) (filepath : string) : State :=
  let s := with_embeddings (ddel filepath (file_embeddings s)) s in
  let s := with_contents (ddel filepath (file_contents s)) s in
  let s := with_clusters (ddel filepath (file_clusters s)) s in
  let s := storage_delete_embedding filepath s in
  let s := rag_remove_document filepath s in
  recluster_and_organize s.

(** [event_callback]; the outcome is [Raised] when the exception of the
    store escaped. *)
Definition event_callback `{Externals} (arg : CallbackArg) (s : State) : Outcome unit * State :=
  let events := match arg with OneEvent e => [e] | EventList es => es end in
  match plan_events events (mkPlan [] []) s with
  | (None, s) => (Raised, s)
  | (Some plan, s) =>
      let s := match files_to_process plan with
               | [] => s
               | _ => process_files_batch (files_to_process plan) s
               end in
      (Returned (), foldl delete_one s (files_to_delete plan))
  end.

(** *** Observations on the record of calls *)

(** How many times [recluster_and_organize] was entered. *)
Definition recluster_passes (s : State) : nat :=
  length (filter (λ c, c = CallRecluster) (trace s)).



(** *** Where the organizer puts a file *)




(** A character that is neither the underscore of a folder name nor a
    path separator; the digits and the sign of an integer are such. *)
Definition numeric (c : ascii) : Prop := c ≠ "_"%char ∧ OsPath.is_sep c = false.


(** *** Coherence of the three dictionaries *)

(** The embeddings form a dictionary, they and the contents have the
    same keys, and every key of the cluster dictionary is one of them. *)
Definition coherent (s : State) : Prop :=
  NoDup (keys (file_embeddings s))
  ∧ keys (file_embeddings s) ⊆ keys (file_contents s)
  ∧ keys (file_contents s) ⊆ keys (file_embeddings s)
  ∧ keys (file_clusters s) ⊆ keys (file_embeddings s).

Global Instance coherent_dec s : Decision (coherent s).
Proof. unfold coherent. apply _. Defined.


(** *** Auxiliary notions for the organizer loop *)



(** *** calculate_entropy *)

(** [sklearn.metrics.silhouette_score] with the cosine metric; [None]
    stands for a raised exception. *)
Class Metrics := {
  silhouette_score : list Embedding → list Z → option Q
}.

Record Entropy := mkEntropy { entropy : Q; cohesion : Q; separation : Q }.

(** The label under which [calculate_entropy] files a path. *)
Definition label_of (clusters : dict string (Z * string)) (filepath : string) : Z :=
  match dget filepath clusters with
  | Some cluster => cluster.1
  | None => (-1)%Z
  end.

Definition calculate_entropy `{Metrics} (s : State) : Entropy :=
  if length (file_embeddings s) <? 2 then mkEntropy 0 1 0
  else
    let embeddings_array := values (file_embeddings s) in
    let cluster_labels := label_of (file_clusters s) <$> keys (file_embeddings s) in
    if 1 <? size (list_to_set cluster_labels : gset Z) then
      match silhouette_score embeddings_array cluster_labels with
      | Some silhouette =>
          let entropy := ((1 - silhouette) / 2)%Q in
          mkEntropy (Qmax 0 (Qmin 1 entropy)) ((silhouette + 1) / 2)%Q (Qabs silhouette)
      | None => mkEntropy (1 # 2) (1 # 2) 0
      end
    else mkEntropy (1 # 2) (1 # 2) 0.

(** *** GET /graph *)

Record Node := mkNode {
  n_id : string;
  n_group : string;
  n_val : nat;
  n_label : string;
  n_filepath : option string;
  n_entropy : option Q
}.

(** A link; the target of a file link is what [seen_clusters.get]
    answers. *)
Record Link := mkLink { l_source : string; l_target : option string }.

Record Graph := mkGraph {
  g_nodes : list Node;
  g_links : list Link;
  g_entropy : Entropy
}.

(** One iteration of the loop that creates the topic nodes. *)
Definition topic_step (acc : dict (Z * string) string * list Node * list Link)
    (item : string * (Z * string)) : dict (Z * string) string * list Node * list Link :=
  let '(seen_clusters, nodes, links) := acc in
  let '(_, (cid, topic)) := item in
  if decide (cid = (-1)%Z) then acc
  else if dmem (cid, topic) seen_clusters then acc
  else
    let node_id := topic +:+ "_" +:+ Py.str_of_int cid in
    (dset (cid, topic) node_id seen_clusters,
     nodes ++ [mkNode node_id "topic" 20 topic None None],
     links ++ [mkLink "ROOT" (Some node_id)]).

(** One iteration of the loop that creates the file nodes. *)
Definition file_step (seen_clusters : dict (Z * string) string)
    (acc : list Node * list Link) (item : string * (Z * string)) : list Node * list Link :=
  let '(nodes, links) := acc in
  let '(filepath, (cid, topic)) := item in
  let fname := OsPath.basename filepath in
  if decide (cid ≠ (-1)%Z) then
    let target_node := dget (cid, topic) seen_clusters in
    (nodes ++ [mkNode fname "file" 5 fname (Some filepath) None],
     links ++ [mkLink fname target_node])
  else
    (nodes ++ [mkNode fname "noise" 3 fname (Some filepath) None],
     links ++ [mkLink fname (Some "ROOT")]).

Definition get_graph `{Metrics} (s : State) : Graph :=
  let entropy_metrics := calculate_entropy s in
  let nodes := [mkNode "ROOT" "root" 30 "Semantic Core" None (Some (entropy entropy_metrics))] in
  let '(seen_clusters, nodes, links) := foldl topic_step ([], nodes, []) (file_clusters s) in
  let '(nodes, links) := foldl (file_step seen_clusters) (nodes, links) (file_clusters s) in
  mkGraph nodes links entropy_metrics.

(** *** GET /clusters *)

Record ClusterInfo := mkClusterInfo {
  ci_id : Z;
  ci_topic : string;
  ci_files : list string
}.

(** One iteration of the loop of [get_clusters]. *)
Definition clusters_step (clusters : dict string ClusterInfo)
    (item : string * (Z * string)) : dict string ClusterInfo :=
  let '(filepath, (cid, topic)) := item in
  if decide (cid ≠ (-1)%Z) then
    let cluster_id := topic +:+ "_" +:+ Py.str_of_int cid in
    let clusters :=
      if dmem cluster_id clusters then clusters
      else dset cluster_id (mkClusterInfo cid topic []) clusters in
    match dget cluster_id clusters with
    | Some info =>
        dset cluster_id
             (mkClusterInfo (ci_id info) (ci_topic info)
                            (ci_files info ++ [OsPath.basename filepath]))
             clusters
    | None => clusters
    end
  else clusters.

Definition get_clusters (s : State) : list ClusterInfo :=
  values (foldl clusters_step [] (file_clusters s)).

(** The base names of the files that [clusters] assigns to the cluster
    [cid] with the label [topic], in dictionary order. *)
Definition members (cid : Z) (topic : string) (clusters : dict string (Z * string))
    : list string :=
  OsPath.basename <$> keys (filter (λ item, item.2 = (cid, topic)) clusters).

(** *** POST /move-file *)

Record MoveRequest := mkMoveRequest {
  rq_filepath : option string;
  rq_target_cluster : option string
}.

Inductive MoveReply :=
  | MoveFailed (error : string)
  | MovedTo (new_path : string)
  | AlreadyInTarget.

(** The parsing of the cluster name: the label, and the identifier when
    it reads as an integer. *)
Definition parse_cluster (target_cluster : string) : option (string * option Z) :=
  match PyParse.rsplit_once "_" target_cluster with
  | [topic_label; number] => Some (topic_label, PyParse.int_of_str number)
  | _ => None
  end.

(** [move_file]; a request without a cluster name ends in an exception,
    since [None] has no [rsplit]. *)
Definition move_file (request : MoveRequest) (s : State) : Outcome MoveReply * State :=
  match rq_filepath request with
  | None => (Returned (MoveFailed "File not found"), s)
  | Some filepath =>
      if String.eqb filepath EmptyString || negb (exists_on (disk s) filepath)
      then (Returned (MoveFailed "File not found"), s)
      else
        match rq_target_cluster request with
        | None => (Raised, s)
        | Some target_cluster =>
            match parse_cluster target_cluster with
            | None => (Returned (MoveFailed "Invalid cluster format"), s)
            | Some (_, None) => (Returned (MoveFailed "Invalid cluster ID"), s)
            | Some (topic_label, Some cluster_id) =>
                let s := with_clusters
                           (dset filepath (cluster_id, topic_label) (file_clusters s)) s in
                let filename := OsPath.basename filepath in
                let target_dir := OsPath.join Config.MONITOR_ROOT target_cluster in
                let target := OsPath.join target_dir filename in
                if decide (filepath ≠ target) then
                  let s :=
                    if dmem filepath (file_embeddings s) then
                      let '(emb, embs) := dpop filepath (file_embeddings s) in
                      with_embeddings (from_option (λ e, dset target e embs) embs emb) s
                    else s in
                  let s :=
                    if dmem filepath (file_contents s) then
                      let '(c, conts) := dpop filepath (file_contents s) in
                      with_contents (from_option (λ c, dset target c conts) conts c) s
                    else s in
                  let s :=
                    let '(c, clus) := dpop filepath (file_clusters s) in
                    with_clusters (from_option (λ c, dset target c clus) clus c) s in
                  let s := storage_update_cluster target cluster_id topic_label s in
                  let s := file_manager_safe_move filepath target s in
                  (Returned (MovedTo target), s)
                else (Returned AlreadyInTarget, s)
            end
        end
  end.

(** *** The start of the process *)





End Main.

(** ** A concrete deployment

    Stand-ins for the external collaborators and a handful of files, used
    to run the embedding on concrete inputs. *)
Module Scenario.
Import Main.

(** An embedding model with two orthogonal directions. *)
Definition two_topics (text : string) : option Embedding :=
  Some (if Py.startswith text "quantum" then [1%Q; 0%Q] else [0%Q; 1%Q]).

(** What DBSCAN with [min_samples = 1] answers when the points lie
    pairwise farther apart than [eps] (orthogonal vectors are at cosine
    distance 1): every point is a cluster of its own, and clusters are
    numbered in the order in which their first point is met. *)
Definition dbscan_far_apart (eps : Q) (min_samples : nat) (X : list Embedding) : list Z :=
  Z.of_nat <$> seq 0 (length X).

(** A keyword extractor that proposes the first word of the text. *)
Definition first_word (text : string) : option (list string) :=
  Some (take 1 (Py.split text)).

Definition externals : Externals.
Proof.
  refine {| encode := two_topics; dbscan := dbscan_far_apart;
            extract_keywords := first_word |}.
  intros eps m X. unfold dbscan_far_apart. by rewrite length_fmap, length_seq.
Defined.

Definition root : string := Config.MONITOR_ROOT.

Definition file_manager0 : FileOps.FileManager := FileOps.mkFM root ∅ [].

(** A freshly started process over the disk [fs]. *)
Definition fresh (fs : Disk) : State :=
  mkState [] [] [] ∅ [] file_manager0 fs 0 [].

Definition a_txt : string := "F:\vibecode\sefs_root\Quantum_1\a.txt".
Definition b_txt : string := "F:\vibecode\sefs_root\b.txt".
Definition tiny_txt : string := "F:\vibecode\sefs_root\tiny.txt".
Definition gaps_txt : string := "F:\vibecode\sefs_root\gaps.txt".

Definition quantum_text : string := "quantum entanglement and superposition".
Definition neural_text : string := "neural network training loss".

(** Two documents on different topics; [a.txt] already sits in a folder
    left behind by an earlier run. *)
Definition two_files : Disk :=
  {[ a_txt := mkFile 100 (Some quantum_text); b_txt := mkFile 100 (Some neural_text) ]}.

(** A process whose Store already holds a fresh row for [a.txt]. *)
Definition cached : State :=
  mkState [] [] [] {[ a_txt := Storage.mkRow [1%Q; 0%Q] quantum_text 100 (-1) EmptyString ]}
          [] file_manager0 two_files 0 [].

(** A text of exactly ten characters, none of them whitespace, and a
    text of six letters separated by single blanks. *)
Definition short_files : Disk :=
  {[ tiny_txt := mkFile 100 (Some "abcdefghij");
     gaps_txt := mkFile 100 (Some "a b c d e f") ]}.

(** The number of non-whitespace characters of a text. *)
Fixpoint non_whitespace (text : string) : nat :=
  match text with
  | EmptyString => 0
  | String c r => (if Py.is_space c then 0 else 1) + non_whitespace r
  end.

(** One file that is moved twice within a second: first into the folder
    of one cluster, then into the folder of another.  The states of the
    file manager after the first move (at instant 0), after the second
    move (at instant 1000) and when the clock reaches instant 2000. *)
Definition x_root : string := "F:\vibecode\sefs_root\x.txt".
Definition x_alpha : string := "F:\vibecode\sefs_root\Alpha_0\x.txt".
Definition x_beta : string := "F:\vibecode\sefs_root\Beta_1\x.txt".

Definition one_file : Disk := {[ x_root := mkFile 100 (Some quantum_text) ]}.

Definition after_first_move : FileOps.FileManager * Disk :=
  (FileOps.safe_move 0 x_root x_alpha file_manager0 one_file).1.

Definition after_second_move : FileOps.FileManager * Disk :=
  (FileOps.safe_move 1000 x_alpha x_beta
     (FileOps.advance 1000 after_first_move.1) after_first_move.2).1.

Definition at_2000 : FileOps.FileManager := FileOps.advance 2000 after_second_move.1.

(** A text of [n] words. *)
Fixpoint text_of_words (n : nat) : string :=
  match n with
  | O => EmptyString
  | S n' => "w " +:+ text_of_words n'
  end.



(** A handler that has queued one event at instant 0. *)
Definition watching : Monitor.SEFSHandler :=
  Monitor.on_any_event 0 file_manager0 (Monitor.mkEvent false a_txt Monitor.Created)
                       (Monitor.mkHandler [] None).

(** A collection that holds the one chunk of a text of thirty words. *)
Definition indexed : Rag.Collection :=
  @Rag.add_document externals b_txt (text_of_words 30) (-1) EmptyString [].

(** A process that knows [a.txt], and its store after the row of
    [a.txt] was renamed. *)
Definition knowing : State :=
  mkState [(a_txt, [1%Q; 0%Q])] [(a_txt, quantum_text)] []
          {[ a_txt := Storage.mkRow [1%Q; 0%Q] quantum_text 100 (-1) EmptyString ]}
          [] file_manager0 two_files 0 [].

Definition renamed_store : Storage.Store :=
  default ∅ (Storage.move_embedding a_txt x_root (storage knowing)).

End Scenario.

(** * Properties *)

(** ** The primitives on concrete inputs *)
Example basename_ex : OsPath.basename "F:\root\Topic_0\a.txt" = "a.txt".
Proof. reflexivity. Qed.
Example dirname_ex : OsPath.basename (OsPath.dirname "F:\root\Topic_0\a.txt") = "Topic_0".
Proof. reflexivity. Qed.
Example join_ex : OsPath.join (OsPath.join "F:\root" "Topic_0") "a.txt" = "F:\root\Topic_0\a.txt".
Proof. reflexivity. Qed.
Example title_ex : Py.title (Py.replace_char " " "_" "quantum physics") = "Quantum_Physics".
Proof. reflexivity. Qed.
Example split_ex : Py.split "  ab  c d " = ["ab"; "c"; "d"].
Proof. reflexivity. Qed.
Example strip_ex : Py.strip "  a b  " = "a b".
Proof. reflexivity. Qed.
Example range_ex : Py.range_step 8 3 = [0; 3; 6].
Proof. reflexivity. Qed.
Example str_ex : Py.str_of_int (-1) = "-1" ∧ Py.str_of_int 12 = "12".
Proof. split; reflexivity. Qed.

(** ** Dictionaries *)
Section DictFacts.
Context {K V : Type} `{EqDecision K}.
Implicit Types (d : dict K V) (k : K) (v : V).

Lemma dget_None k d : dget k d = None ↔ k ∉ keys d.
Proof.
  induction d as [|[k' v'] d IH]; simpl.
  - split; [intros _; apply not_elem_of_nil | done].
  - case_decide as Hk; subst.
    + split; [done | intros []; left].
    + rewrite IH, not_elem_of_cons. naive_solver.
Qed.

Lemma dget_is_Some k d : is_Some (dget k d) ↔ k ∈ keys d.
Proof.
  rewrite <-not_eq_None_Some, dget_None.
  split; [apply dec_stable | auto].
Qed.

Lemma dget_Some_elem k v d : dget k d = Some v → (k, v) ∈ d.
Proof.
  induction d as [|[k' v'] d IH]; simpl; [done|].
  case_decide; intros; simplify_eq; [left | right; auto].
Qed.

Lemma elem_dget_Some k v d : NoDup (keys d) → (k, v) ∈ d → dget k d = Some v.
Proof.
  induction d as [|[k' v'] d IH]; simpl; [by intros _ ?%elem_of_nil|].
  intros [Hk' Hd]%NoDup_cons [Heq|Hin]%elem_of_cons.
  - simplify_eq. by rewrite decide_True.
  - rewrite decide_False; [auto|].
    intros ->. apply Hk'. unfold keys. apply list_elem_of_fmap. by exists (k, v).
Qed.

Lemma dmem_true k d : dmem k d = true ↔ k ∈ keys d.
Proof. unfold dmem. apply bool_decide_eq_true. Qed.

Lemma elem_of_keys_dset k k' v d : k ∈ keys (dset k' v d) ↔ k = k' ∨ k ∈ keys d.
Proof.
  induction d as [|[k'' v''] d IH]; simpl.
  - rewrite list_elem_of_singleton. split; [auto | intros [|?%elem_of_nil]; done].
  - case_decide; subst; simpl; rewrite !elem_of_cons; [|rewrite IH]; naive_solver.
Qed.

Lemma elem_of_keys_ddel k k' d : k ∈ keys (ddel k' d) ↔ k ≠ k' ∧ k ∈ keys d.
Proof.
  unfold ddel, keys. rewrite !list_elem_of_fmap. split.
  - intros ([k1 v1] & -> & [Hne Hin]%list_elem_of_filter). split; [done|]. by exists (k1, v1).
  - intros [Hne ([k1 v1] & -> & Hin)]. exists (k1, v1). split; [done|].
    by apply list_elem_of_filter.
Qed.


Lemma dget_dset_eq k v d : dget k (dset k v d) = Some v.
Proof.
  induction d as [|[k' v'] d IH]; simpl; [by rewrite decide_True|].
  case_decide as Hk; simpl; [by rewrite decide_True | by rewrite decide_False].
Qed.

Lemma dget_dset_ne k k' v d : k ≠ k' → dget k (dset k' v d) = dget k d.
Proof.
  intros Hne. induction d as [|[k'' v''] d IH]; simpl; [by rewrite decide_False|].
  case_decide as Hk; subst; simpl.
  - by rewrite !decide_False.
  - by rewrite IH.
Qed.

Lemma dget_ddel_eq k d : dget k (ddel k d) = None.
Proof. apply dget_None. rewrite elem_of_keys_ddel. naive_solver. Qed.


Lemma dset_id k v d : dget k d = Some v → dset k v d = d.
Proof.
  induction d as [|[k' v'] d IH]; simpl; [done|].
  case_decide; intros; simplify_eq; [done | by rewrite IH].
Qed.

Lemma ddel_id k d : k ∉ keys d → ddel k d = d.
Proof.
  intros Hk. unfold ddel. induction d as [|[k' v'] d IH]; [done|].
  simpl in Hk. apply not_elem_of_cons in Hk as [Hne Hk].
  rewrite filter_cons_True by (simpl; congruence). by rewrite IH.
Qed.


Lemma keys_dset_present k v d : k ∈ keys d → keys (dset k v d) = keys d.
Proof.
  induction d as [|[k' v'] d IH]; simpl; [by intros ?%elem_of_nil|].
  case_decide as Hk; subst; simpl; [done|].
  intros [?|?]%elem_of_cons; [congruence | by rewrite IH].
Qed.

Lemma keys_dset_absent k v d : k ∉ keys d → keys (dset k v d) = keys d ++ [k].
Proof.
  induction d as [|[k' v'] d IH]; simpl; [done|].
  intros [Hne Hk]%not_elem_of_cons. rewrite decide_False by done. simpl. by rewrite IH.
Qed.

Lemma NoDup_keys_dset k v d : NoDup (keys d) → NoDup (keys (dset k v d)).
Proof.
  intros Hd. destruct (decide (k ∈ keys d)) as [Hk|Hk].
  - by rewrite keys_dset_present.
  - rewrite keys_dset_absent by done. apply NoDup_app. split_and!; [done | | apply NoDup_singleton].
    intros x Hx ->%list_elem_of_singleton. done.
Qed.



End DictFacts.

(** ** The Store *)
Section StorageFacts.
Import Storage.


Lemma stale_false (current stored : Q) :
  stale current stored = false ↔ (Qabs (current - stored) <= 1)%Q.
Proof. unfold stale. by rewrite negb_false_iff, Qle_bool_iff. Qed.

(** A hit of [get_embedding] hands out the columns of the row. *)
Lemma get_embedding_Some (filepath : string) (fs : Disk) (db : Store)
    (embedding : Embedding) (content : string) (mtime : Q) :
  get_embedding filepath fs db = Some (embedding, content, mtime) →
  ∃ row, db !! filepath = Some row ∧ embedding = r_embedding row
         ∧ content = r_content row ∧ mtime = r_last_modified row.
Proof.
  unfold get_embedding. destruct (fs !! filepath); [|done].
  destruct (db !! filepath) as [row|]; [|done].
  destruct (stale _ _); [done|]. intros [= <- <- <-]. by exists row.
Qed.


(** A row that is present has its two cluster columns overwritten and
    nothing else. *)
Lemma update_cluster_present (filepath : string) (cluster_id : Z) (topic_label : string)
    (db : Store) (row : Row) :
  db !! filepath = Some row →
  update_cluster filepath cluster_id topic_label db
  = <[filepath := mkRow (r_embedding row) (r_content row) (r_last_modified row)
                        cluster_id topic_label]> db.
Proof.
  intros Hrow. unfold update_cluster. apply map_eq. intros p.
  destruct (decide (filepath = p)) as [->|Hne].
  - by rewrite lookup_alter_eq, lookup_insert_eq, Hrow.
  - by rewrite lookup_alter_ne, lookup_insert_ne.
Qed.

(** C8 (amended).  On a path without a row [update_cluster] is a plain
    UPDATE that matches nothing: the Store is unchanged, and so still has
    no row for the path. *)
Theorem update_cluster_missing_row (filepath : string) (cluster_id : Z)
    (topic_label : string) (db : Store) :
  db !! filepath = None →
  update_cluster filepath cluster_id topic_label db = db
  ∧ update_cluster filepath cluster_id topic_label db !! filepath = None.
Proof.
  intros Hrow. unfold update_cluster.
  assert (alter (λ row, mkRow (r_embedding row) (r_content row) (r_last_modified row)
                              cluster_id topic_label) filepath db = db) as ->; [|done].
  apply map_eq. intros p. destruct (decide (filepath = p)) as [->|Hne].
  - by rewrite lookup_alter_eq, Hrow.
  - by rewrite lookup_alter_ne.
Qed.

Lemma update_cluster_missing_row_witness :
  update_cluster "F:\vibecode\sefs_root\Quantum_0\a.txt" 0 "Quantum" ∅ = ∅
  ∧ update_cluster "F:\vibecode\sefs_root\Quantum_0\a.txt" 0 "Quantum" (∅ : Store)
    !! "F:\vibecode\sefs_root\Quantum_0\a.txt" = None.
Proof. apply update_cluster_missing_row. vm_compute. reflexivity. Defined.

(** C8 as stated fails: after [update_cluster] on an empty Store there is
    no row carrying the given cluster. *)
Lemma update_cluster_is_not_insert :
  ¬ (∀ (filepath : string) (cluster_id : Z) (topic_label : string) (db : Store),
       db !! filepath = None →
       ∃ row, update_cluster filepath cluster_id topic_label db !! filepath = Some row
              ∧ r_cluster_id row = cluster_id ∧ r_topic_label row = topic_label).
Proof.
  intros Hclaim.
  destruct (Hclaim "F:\vibecode\sefs_root\Quantum_0\a.txt" 0%Z "Quantum" ∅ (lookup_empty _))
    as (row & Hrow & _).
  vm_compute in Hrow. discriminate.
Qed.

End StorageFacts.

(** ** Ingestion of one file *)
Section ProcessFileFacts.
Import Main Scenario.
Context `{Externals}.

(** C10.  On a cache hit, that is, when the path passed the eligibility
    filter and the Store answered with a fresh row, [process_file]
    returns [True], copies the stored embedding and content into the two
    dictionaries and leaves every other component as it was: the Store,
    the chunk index, the cluster dictionary, the file manager, the disk
    and the record of calls (so no Store write, no chunk added or
    removed). *)
Theorem process_file_cache_hit (filepath : string) (s : State)
    (embedding : Embedding) (content : string) (mtime : Q) :
  eligible filepath = true →
  Storage.get_embedding filepath (disk s) (storage s) = Some (embedding, content, mtime) →
  (∃ row, storage s !! filepath = Some row
          ∧ embedding = Storage.r_embedding row ∧ content = Storage.r_content row)
  ∧ process_file filepath s
    = (true,
       mkState (dset filepath embedding (file_embeddings s))
               (dset filepath content (file_contents s))
               (file_clusters s) (storage s) (rag_engine s) (file_manager s)
               (disk s) (clock s) (trace s)).
Proof.
  intros Hel Hget. split.
  - destruct (get_embedding_Some _ _ _ _ _ _ Hget) as (row & Hrow & -> & -> & _).
    by exists row.
  - unfold process_file. by rewrite Hel, Hget.
Qed.




End ProcessFileFacts.

Section ProcessFileExamples.
Import Main Scenario.

Lemma process_file_cache_hit_witness :
  eligible a_txt = true
  ∧ Storage.get_embedding a_txt (disk cached) (storage cached)
    = Some ([1%Q; 0%Q], quantum_text, 100%Q)
  ∧ @process_file externals a_txt cached
    = (true, mkState [(a_txt, [1%Q; 0%Q])] [(a_txt, quantum_text)] [] (storage cached) []
                     file_manager0 two_files 0 []).
Proof.
  split; [reflexivity|]. split; [vm_compute; reflexivity|].
  apply (proj2 (@process_file_cache_hit externals a_txt cached [1%Q; 0%Q] quantum_text 100%Q
                  ltac:(reflexivity) ltac:(vm_compute; reflexivity))).
Defined.



(** In the other direction, six letters separated by blanks are
    embedded: the interior blanks count towards the length. *)
Example six_letters_are_embedded :
  Analyzer.extract_text gaps_txt (disk (fresh short_files)) = Some "a b c d e f"
  ∧ non_whitespace "a b c d e f" = 6
  ∧ (@process_file externals gaps_txt (fresh short_files)).1 = true.
Proof. split_and!; vm_compute; reflexivity. Qed.

End ProcessFileExamples.

(** ** Batches *)
Section BatchFacts.
Import Main Scenario.
Context `{Externals}.

Lemma recluster_passes_log (c : Call) (s : State) :
  recluster_passes (log c s) = recluster_passes s + (if decide (c = CallRecluster) then 1 else 0).
Proof.
  unfold recluster_passes, log. simpl. rewrite filter_app, length_app. f_equal.
  rewrite filter_cons, filter_nil. by destruct (decide (c = CallRecluster)).
Qed.





Lemma organize_one_passes (s : State) (item : string * (Z * string)) :
  recluster_passes (organize_one s item) = recluster_passes s.
Proof.
  destruct item as [filepath [cluster_id topic_label]]. unfold organize_one.
  repeat case_decide; try done.
  - unfold storage_update_cluster. rewrite recluster_passes_log. simpl.
    unfold recluster_passes. simpl. lia.
  - unfold dpop, file_manager_safe_move.
    destruct (FileOps.safe_move _ _ _ _ _) as [[fm fs] steps].
    rewrite recluster_passes_log. simpl.
    unfold recluster_passes. simpl.
    rewrite !filter_app, !length_app. simpl. lia.
Qed.

Lemma organize_all_passes (items : dict string (Z * string)) (s : State) :
  recluster_passes (foldl organize_one s items) = recluster_passes s.
Proof.
  revert s. induction items as [|item items IH]; intros s; simpl; [done|].
  by rewrite IH, organize_one_passes.
Qed.

(** Every call of [recluster_and_organize] is one pass. *)
Lemma recluster_and_organize_passes (s : State) :
  recluster_passes (recluster_and_organize s) = recluster_passes s + 1.
Proof.
  unfold recluster_and_organize.
  assert (recluster_passes (log CallRecluster s) = recluster_passes s + 1) as Hlog
    by (by rewrite recluster_passes_log).
  destruct (file_embeddings (log CallRecluster s)); [done|].
  destruct (file_embeddings (prune (log CallRecluster s))); [done|].
  by rewrite organize_all_passes.
Qed.


End BatchFacts.


(** ** Chunking *)
Section ChunkFacts.
Import Rag.

Lemma ceil_div_step (n step : nat) :
  0 < step → ceil_div (n + step) step = S (ceil_div n step).
Proof.
  intros Hstep. unfold ceil_div.
  replace (n + step + (step - 1)) with (n + (step - 1) + 1 * step) by lia.
  rewrite Nat.div_add by lia. lia.
Qed.

Lemma ceil_div_zero (step : nat) : 0 < step → ceil_div 0 step = 0.
Proof. intros Hstep. unfold ceil_div. apply Nat.div_small. lia. Qed.

Lemma ceil_div_small (n step : nat) : 0 < n → n ≤ step → ceil_div n step = 1.
Proof.
  intros Hn Hle. unfold ceil_div.
  replace (n + (step - 1)) with ((n - 1) + 1 * step) by lia.
  rewrite Nat.div_add by lia. rewrite Nat.div_small by lia. done.
Qed.

(** The number of indices [i, i + step, ...] below [stop]. *)
Lemma range_from_length (fuel i stop step : nat) :
  0 < step → stop ≤ fuel + i →
  length (Py.range_from fuel i stop step) = ceil_div (stop - i) step.
Proof.
  intros Hstep. revert i. induction fuel as [|fuel IH]; intros i Hfuel; simpl.
  - replace (stop - i) with 0 by lia. by rewrite ceil_div_zero.
  - destruct (i <? stop) eqn:Hlt.
    + apply Nat.ltb_lt in Hlt. simpl. rewrite IH by lia.
      destruct (decide (stop - i ≤ step)) as [Hsmall|Hbig].
      * replace (stop - (i + step)) with 0 by lia.
        rewrite ceil_div_zero, ceil_div_small by lia. done.
      * replace (stop - i) with (stop - (i + step) + step) by lia.
        by rewrite ceil_div_step.
    + apply Nat.ltb_ge in Hlt. replace (stop - i) with 0 by lia.
      by rewrite ceil_div_zero.
Qed.

(** C6 (amended).  For a text of [N] words the loop of [chunk_text] visits
    [ceil(N / (CHUNK_SIZE - CHUNK_OVERLAP))] windows before the
    minimum-length filter: one window per stride of 350 words. *)
Theorem windows_count (words : list string) :
  length (windows words) = ceil_div (length words) (Config.CHUNK_SIZE - Config.CHUNK_OVERLAP).
Proof.
  unfold windows, Py.range_step. rewrite length_fmap.
  rewrite range_from_length.
  - by rewrite Nat.sub_0_r.
  - unfold stride, Config.CHUNK_SIZE, Config.CHUNK_OVERLAP. lia.
  - lia.
Qed.

(** C6 as stated fails: a text of 351 words is cut into two windows,
    where the law of the specification announces one. *)
Lemma chunking_law_fails_at_351 :
  length (Py.split (Scenario.text_of_words 351)) = 351
  ∧ length (windows (Py.split (Scenario.text_of_words 351))) = 2
  ∧ chunking_law 351 (Z.of_nat Config.CHUNK_SIZE) (Z.of_nat Config.CHUNK_OVERLAP) = 1%Z
  ∧ Z.of_nat (length (windows (Py.split (Scenario.text_of_words 351))))
    ≠ chunking_law 351 (Z.of_nat Config.CHUNK_SIZE) (Z.of_nat Config.CHUNK_OVERLAP).
Proof. split_and!; vm_compute; (reflexivity || discriminate). Qed.

End ChunkFacts.

(** ** The debounced queue *)
Section MonitorFacts.
Import Monitor.

Lemma last_event_for_cons (path : string) (e : Event) (queue : list Event) :
  last_event_for path (e :: queue)
  = match last_event_for path queue with
    | Some e' => Some e'
    | None => if decide (src_path e = path) then Some e else None
    end.
Proof.
  unfold last_event_for. rewrite filter_cons. case_decide.
  - by rewrite last_cons.
  - by destruct (last _).
Qed.

Lemma elem_of_dset (k k' : string) (e e' : Event) (d : dict string Event) :
  (k, e) ∈ dset k' e' d → (k, e) = (k', e') ∨ (k, e) ∈ d.
Proof.
  induction d as [|[k0 e0] d IH]; simpl.
  - intros ->%list_elem_of_singleton. by left.
  - case_decide; subst.
    + intros [->|Hin]%elem_of_cons; [by left | right; by right].
    + intros [->|Hin]%elem_of_cons; [right; left | ].
      destruct (IH Hin) as [?|?]; [by left | right; by right].
Qed.

Lemma deduplicate_acc (queue : list Event) (acc : dict string Event) :
  NoDup (keys acc) → keyed_by_source acc →
  let unique := foldl (λ unique event, dset (src_path event) event unique) acc queue in
  NoDup (keys unique) ∧ keyed_by_source unique
  ∧ ∀ path, dget path unique
            = match last_event_for path queue with
              | Some e => Some e
              | None => dget path acc
              end.
Proof.
  revert acc. induction queue as [|e queue IH]; intros acc Hnd Hkeyed; simpl.
  - split_and!; done.
  - destruct (IH (dset (src_path e) e acc)) as (Hnd' & Hkeyed' & Hget).
    + by apply NoDup_keys_dset.
    + intros k e' [Heq|Hin]%elem_of_dset; [by simplify_eq | by apply Hkeyed].
    + split_and!; [done..|]. intros path. rewrite Hget, last_event_for_cons.
      destruct (last_event_for path queue); [done|].
      case_decide; subst; [apply dget_dset_eq | by apply dget_dset_ne].
Qed.

Lemma deduplicate_spec (queue : list Event) :
  NoDup (keys (deduplicate queue)) ∧ keyed_by_source (deduplicate queue)
  ∧ ∀ path, dget path (deduplicate queue) = last_event_for path queue.
Proof.
  destruct (deduplicate_acc queue []) as (Hnd & Hkeyed & Hget);
    [apply NoDup_nil_2 | by intros ?? ?%elem_of_nil |].
  split_and!; [done..|]. intros path. unfold deduplicate. rewrite Hget.
  by destruct (last_event_for path queue).
Qed.




End MonitorFacts.

(** ** Self-event suppression *)
Section SuppressionFacts.
Import FileOps Monitor.

(** Both paths are marked before the rename is attempted. *)
Lemma safe_move_marks_before_rename (now : Millis) (src dst : string)
    (fm : FileManager) (fs : Disk) :
  src ≠ dst →
  ∃ outcome rest,
    (safe_move now src dst fm fs).2 = AddPending dst :: AddPending src :: outcome :: rest
    ∧ (outcome = Rename src dst ∨ outcome = RenameFailed src dst).
Proof.
  intros Hne. unfold safe_move. rewrite decide_False by done.
  destruct (shutil_move src dst fs); simpl; eauto.
Qed.

(** After a successful rename both paths are pending and one sleeper is
    set to wake two seconds later. *)
Lemma safe_move_success (now : Millis) (src dst : string) (fm : FileManager) (fs : Disk) :
  src ≠ dst → is_Some (fs !! src) →
  ∃ fs', (safe_move now src dst fm fs).1
         = (mkFM (root_dir fm) ({[src]} ∪ ({[dst]} ∪ pending_moves fm))
                 (sleepers fm ++ [mkSleeper (now + SETTLE) dst src]), fs').
Proof.
  intros Hne [file Hfile]. unfold safe_move, shutil_move.
  rewrite decide_False, Hfile by done. eauto.
Qed.

(** An event whose source or destination is pending is never queued. *)
Lemma on_any_event_drops_pending (now : Millis) (fm : FileManager) (event : Event)
    (h : SEFSHandler) :
  src_path event ∈ pending_moves fm
  ∨ (∃ dest, dest_of event = Some dest ∧ dest ∈ pending_moves fm) →
  on_any_event now fm event h = h.
Proof.
  intros Hpending. unfold on_any_event, is_system_operation.
  destruct (is_directory event); [done|].
  destruct (is_metadata (src_path event)); [done|].
  destruct (from_option is_metadata false (dest_of event)); [done|].
  destruct Hpending as [Hsrc|(dest & Hdest & Hin)].
  - by rewrite bool_decide_eq_true_2.
  - destruct (bool_decide (src_path event ∈ pending_moves fm)); [done|].
    rewrite Hdest. simpl. by rewrite bool_decide_eq_true_2.
Qed.

Lemma elem_of_run_sleepers (x : string) (due : list Sleeper) (pending : gset string) :
  x ∈ foldr run_sleeper pending due
  ↔ x ∈ pending ∧ ∀ s, s ∈ due → x ≠ s_dst s ∧ x ≠ s_src s.
Proof.
  induction due as [|s due IH]; simpl.
  - split; [intros ?; split; [done|by intros ? ?%elem_of_nil] | by intros []].
  - unfold run_sleeper at 1. rewrite !elem_of_difference, IH, !not_elem_of_singleton.
    split.
    + intros [[[Hin Hdue] Hdst] Hsrc]. split; [done|].
      intros s' [->|Hs']%elem_of_cons; [done | by apply Hdue].
    + intros [Hin Hdue]. destruct (Hdue s) as [Hdst Hsrc]; [left|].
      split_and!; try done. intros s' Hs'. apply Hdue. by right.
Qed.

(** A move that shares no path with a sleeper still running keeps both its
    paths pending until its own settle delay has passed. *)
Lemma isolated_move_stays_pending (now t : Millis) (src dst : string)
    (fm : FileManager) (fs : Disk) :
  src ≠ dst → is_Some (fs !! src) →
  (∀ s, s ∈ sleepers fm → ({[s_dst s; s_src s]} : gset string) ## {[src; dst]}) →
  t < now + SETTLE →
  let fm' := (safe_move now src dst fm fs).1.1 in
  src ∈ pending_moves (advance t fm') ∧ dst ∈ pending_moves (advance t fm').
Proof.
  intros Hne Hsrc Hdisjoint Ht.
  destruct (safe_move_success now src dst fm fs Hne Hsrc) as [fs' ->]. simpl.
  assert (∀ x, x = src ∨ x = dst →
    x ∈ foldr run_sleeper ({[src]} ∪ ({[dst]} ∪ pending_moves fm))
          (filter (λ s, wake_at s ≤ t) (sleepers fm ++ [mkSleeper (now + SETTLE) dst src])))
    as Hkeep.
  { intros x Hx. apply elem_of_run_sleepers. split; [set_solver|].
    intros s [Hdue Hs]%list_elem_of_filter.
    apply elem_of_app in Hs as [Hs|Hs%list_elem_of_singleton]; [|subst s; simpl in Hdue; lia].
    specialize (Hdisjoint s Hs). set_solver. }
  split; apply Hkeep; auto.
Qed.

(** C2, the failing run.  A file is moved at instant 0 and moved on at
    instant 1000.  When the sleeper of the first move wakes at instant
    2000 it discards the source of the second move, only one second after
    the second rename, and from then on the monitor queues events on that
    path although the settle delay of the second move has not passed. *)
Theorem overlapping_moves_clear_pending_early :
  (safe_move 1000 Scenario.x_alpha Scenario.x_beta
     (advance 1000 Scenario.after_first_move.1) Scenario.after_first_move.2).2
  = [AddPending Scenario.x_beta; AddPending Scenario.x_alpha;
     Rename Scenario.x_alpha Scenario.x_beta; StartSleeper 3000]
  ∧ Scenario.x_alpha ∈ pending_moves Scenario.after_second_move.1
  ∧ sleepers Scenario.after_second_move.1
    = [mkSleeper 2000 Scenario.x_alpha Scenario.x_root;
       mkSleeper 3000 Scenario.x_beta Scenario.x_alpha]
  ∧ (2000 < 1000 + SETTLE)
  ∧ (Scenario.x_alpha ∉ pending_moves Scenario.at_2000)
  ∧ on_any_event 2000 Scenario.at_2000 (mkEvent false Scenario.x_alpha Deleted)
                 (mkHandler [] None)
    = mkHandler [mkEvent false Scenario.x_alpha Deleted] (Some 4000).
Proof.
  split_and!.
  - vm_compute. reflexivity.
  - compute_done.
  - vm_compute. reflexivity.
  - vm_compute. lia.
  - compute_done.
  - vm_compute. reflexivity.
Qed.

End SuppressionFacts.

(** ** Paths *)
Section PathFacts.
Import OsPath.

Lemma take_while_app {A} (p : A → bool) (l1 l2 : list A) :
  Forall (λ x, p x = true) l1 → take_while p (l1 ++ l2) = l1 ++ take_while p l2.
Proof.
  induction 1 as [|x l1 Hx _ IH]; simpl; [done|]. by rewrite Hx, IH.
Qed.







End PathFacts.

(** ** Folder names *)
Section FolderNameFacts.
Import OsPath Main.

Lemma string_of_uint_numeric (d : Decimal.uint) :
  Forall numeric (list_ascii_of_string (NilEmpty.string_of_uint d)).
Proof. induction d; simpl; constructor; try done; by split. Qed.

Lemma str_of_int_numeric (n : Z) : Forall numeric (list_ascii_of_string (Py.str_of_int n)).
Proof.
  unfold Py.str_of_int, NilZero.string_of_int, NilZero.string_of_uint.
  destruct (Z.to_int n) as [d|d]; destruct d; simpl;
    repeat (constructor; [by split|]); try apply string_of_uint_numeric; constructor.
Qed.


Lemma str_of_int_inj (n m : Z) : Py.str_of_int n = Py.str_of_int m → n = m.
Proof.
  unfold Py.str_of_int. intros Heq. apply DecimalZ.to_int_inj.
  assert (∀ z, NilZero.int_of_string (NilZero.string_of_int (Z.to_int z)) = Some (Z.to_int z))
    as Hround.
  { intros z. apply NilZero.isi; destruct z; simpl; try done;
      intros [= Hnil]; by apply Unsigned.to_uint_nonnil in Hnil. }
  pose proof (Hround n) as Hn. rewrite Heq, Hround in Hn. congruence.
Qed.

Lemma list_ascii_of_string_app (a b : string) :
  list_ascii_of_string (a +:+ b) = list_ascii_of_string a ++ list_ascii_of_string b.
Proof. induction a as [|c a IH]; simpl; [done | by rewrite IH]. Qed.

Lemma list_ascii_of_string_inj (a b : string) :
  list_ascii_of_string a = list_ascii_of_string b → a = b.
Proof.
  intros Heq. rewrite <-(string_of_list_ascii_of_string a), <-(string_of_list_ascii_of_string b).
  by rewrite Heq.
Qed.

(** A list is cut in one way only at the last occurrence of [x]. *)
Lemma app_cons_inj {A} (x : A) (l1 l2 d1 d2 : list A) :
  x ∉ d1 → x ∉ d2 → l1 ++ x :: d1 = l2 ++ x :: d2 → l1 = l2 ∧ d1 = d2.
Proof.
  intros Hd1 Hd2. revert l2. induction l1 as [|a l1 IH]; intros [|b l2] Heq; simpl in *.
  - by simplify_eq.
  - simplify_eq. destruct Hd1. apply elem_of_app. right. left.
  - simplify_eq. destruct Hd2. apply elem_of_app. right. left.
  - simplify_eq. destruct (IH l2) as [-> ->]; done.
Qed.

Lemma numeric_no_underscore (l : list ascii) : Forall numeric l → "_"%char ∉ l.
Proof. intros Hl Hin. rewrite Forall_forall in Hl. by destruct (Hl _ Hin). Qed.


(** A folder name determines the label and the cluster identifier. *)
Lemma folder_suffix_inj (l1 l2 : string) (c1 c2 : Z) :
  l1 +:+ "_" +:+ Py.str_of_int c1 = l2 +:+ "_" +:+ Py.str_of_int c2 → l1 = l2 ∧ c1 = c2.
Proof.
  intros Heq. apply (f_equal list_ascii_of_string) in Heq.
  rewrite !list_ascii_of_string_app in Heq. simpl in Heq.
  apply app_cons_inj in Heq as [Hl Hc];
    try (apply numeric_no_underscore, str_of_int_numeric).
  split; [by apply list_ascii_of_string_inj|].
  by apply str_of_int_inj, list_ascii_of_string_inj.
Qed.

Lemma folder_name_eq (cluster_id : Z) (topic_label : string) :
  folder_name cluster_id topic_label = topic_label +:+ "_" +:+ Py.str_of_int cluster_id.
Proof. reflexivity. Qed.



Lemma drop_while_app {A} (p : A → bool) (l r : list A) (x : A) :
  Forall (λ a, p a = true) l → p x = false → drop_while p (l ++ x :: r) = x :: r.
Proof.
  intros Hl Hx. induction Hl as [|a l Ha _ IH]; simpl; [by rewrite Hx | by rewrite Ha].
Qed.






Lemma root_last : last (list_ascii_of_string Config.MONITOR_ROOT) = Some "t"%char.
Proof. reflexivity. Qed.




End FolderNameFacts.

(** ** Moving a key of a dictionary *)
Section DictMoveFacts.
Context {K V : Type} `{EqDecision K}.
Implicit Types (d : dict K V) (k p t : K).



Lemma dfilter_none (q : K → bool) d : (∀ k, q k = false) → dfilter q d = [].
Proof.
  intros Hq. unfold dfilter. induction d as [|[k v] d IH]; [done|].
  rewrite filter_cons_False; [done|]. simpl. rewrite Hq. done.
Qed.


End DictMoveFacts.


(** ** The organizer *)
Section OrganizeFacts.
Import Main.

Lemma target_path_eq (filepath : string) (cluster_id : Z) (topic_label : string) :
  target_path filepath cluster_id topic_label
  = OsPath.join (OsPath.join Config.MONITOR_ROOT (folder_name cluster_id topic_label))
                (OsPath.basename filepath).
Proof. reflexivity. Qed.
#[local] Opaque target_path folder_name parent_name.











Section ClustererFacts.
Context `{Externals}.




End ClustererFacts.





Lemma prune_trace (s : State) : trace (prune s) = trace s.
Proof. done. Qed.




(** *** What the first pass records *)





(** *** A pass over files that are all in place *)


Section FixedPoint.
Context `{Externals}.

(** The three ways through [recluster_and_organize]. *)
Lemma recluster_cases (s : State) :
  let sl := log CallRecluster s in
  (file_embeddings s = [] ∧ recluster_and_organize s = with_clusters [] sl)
  ∨ (file_embeddings (prune sl) = [] ∧ recluster_and_organize s = prune sl)
  ∨ (recluster_and_organize s = foldl organize_one (prune sl) (new_clusters (prune sl))).
Proof.
  unfold recluster_and_organize.
  change (file_embeddings (log CallRecluster s)) with (file_embeddings s).
  destruct (file_embeddings s) eqn:He; [by left|]. right.
  destruct (file_embeddings (prune (log CallRecluster s))) eqn:Hp; [by left | by right].
Qed.





End FixedPoint.

Section FixedPointExamples.
Import Scenario.





End FixedPointExamples.

Section CoherenceFacts.
Context `{Externals}.












End CoherenceFacts.

Section CallbackCoherence.
Context `{Externals}.
Import Monitor.








End CallbackCoherence.

Section CoherenceExamples.
Import Scenario.



End CoherenceExamples.

End OrganizeFacts.

(** * Further properties of the code *)

(** ** The store as a cache *)
Section StoreCacheFacts.
Import Storage.

Lemma stale_same_instant (mtime : Q) : stale mtime mtime = false.
Proof.
  apply stale_false, Qabs_Qle_condition. unfold Qminus. rewrite Qplus_opp_r.
  split; compute; discriminate.
Qed.

(** X1.  A row saved for a file answers the next [get_embedding] on that
    file with exactly what was saved, as long as the file is on disk with
    a modification time within one second of the saved one; the answers
    for every other path are what they were. *)
Theorem save_then_get (filepath : string) (embedding : Embedding) (content : string)
    (last_modified : Q) (cluster_id : Z) (topic_label : string)
    (fs : Disk) (db : Store) (file : File) :
  fs !! filepath = Some file →
  (Qabs (f_mtime file - last_modified) <= 1)%Q →
  let db' := save_embedding filepath embedding content last_modified cluster_id topic_label db in
  get_embedding filepath fs db' = Some (embedding, content, last_modified)
  ∧ ∀ other, other ≠ filepath → get_embedding other fs db' = get_embedding other fs db.
Proof.
  intros Hfile Hfresh. simpl. split.
  - unfold get_embedding, save_embedding. rewrite Hfile, lookup_insert_eq. simpl.
    apply stale_false in Hfresh. by rewrite Hfresh.
  - intros other Hother. unfold get_embedding, save_embedding.
    by rewrite lookup_insert_ne.
Qed.

Lemma save_then_get_witness :
  let db' := save_embedding Scenario.a_txt [1%Q; 0%Q] Scenario.quantum_text 100 (-1) EmptyString ∅ in
  get_embedding Scenario.a_txt Scenario.two_files db'
  = Some ([1%Q; 0%Q], Scenario.quantum_text, 100%Q)
  ∧ ∀ other, other ≠ Scenario.a_txt →
      get_embedding other Scenario.two_files db' = get_embedding other Scenario.two_files ∅.
Proof.
  apply (save_then_get Scenario.a_txt [1%Q; 0%Q] Scenario.quantum_text 100 (-1) EmptyString
           Scenario.two_files ∅ (mkFile 100 (Some Scenario.quantum_text))).
  - vm_compute. reflexivity.
  - vm_compute. discriminate.
Defined.

(** X2.  [update_cluster] never changes what [get_embedding] answers:
    the cluster columns are no part of a cache hit, and no row is added
    or removed. *)
Theorem update_cluster_keeps_cache (filepath other : string) (cluster_id : Z)
    (topic_label : string) (fs : Disk) (db : Store) :
  get_embedding other fs (update_cluster filepath cluster_id topic_label db)
  = get_embedding other fs db.
Proof.
  unfold get_embedding, update_cluster. destruct (fs !! other) as [file|]; [|done].
  destruct (decide (filepath = other)) as [->|Hne].
  - rewrite lookup_alter_eq. by destruct (db !! other).
  - by rewrite lookup_alter_ne.
Qed.

(** X3.  When a file is renamed on disk and its row is renamed in the
    store, the new path answers what the old path answered, and the old
    path answers nothing. *)
Theorem renamed_file_keeps_its_cache_entry (src dest : string) (fs : Disk) (db : Store)
    (file : File) :
  src ≠ dest → fs !! src = Some file → db !! dest = None →
  ∃ fs' db',
    FileOps.shutil_move src dest fs = Some fs'
    ∧ move_embedding src dest db = Some db'
    ∧ get_embedding dest fs' db' = get_embedding src fs db
    ∧ get_embedding src fs' db' = None.
Proof.
  intros Hne Hfile Hfree. unfold FileOps.shutil_move, move_embedding. rewrite Hfile.
  destruct (db !! src) as [row|] eqn:Hrow.
  - rewrite decide_False, Hfree by done. do 2 eexists. split_and!; [done..| |].
    + unfold get_embedding. by rewrite !lookup_insert_eq, Hfile, Hrow.
    + unfold get_embedding. by rewrite lookup_insert_ne, lookup_delete_eq.
  - do 2 eexists. split_and!; [done..| |].
    + unfold get_embedding. by rewrite lookup_insert_eq, Hfile, Hrow, Hfree.
    + unfold get_embedding. by rewrite lookup_insert_ne, lookup_delete_eq.
Qed.

Lemma renamed_file_keeps_its_cache_entry_witness :
  ∃ fs' db',
    FileOps.shutil_move Scenario.a_txt Scenario.x_root Scenario.two_files = Some fs'
    ∧ move_embedding Scenario.a_txt Scenario.x_root (Main.storage Scenario.cached) = Some db'
    ∧ get_embedding Scenario.x_root fs' db'
      = get_embedding Scenario.a_txt Scenario.two_files (Main.storage Scenario.cached)
    ∧ get_embedding Scenario.a_txt fs' db' = None.
Proof.
  apply (renamed_file_keeps_its_cache_entry Scenario.a_txt Scenario.x_root Scenario.two_files
           (Main.storage Scenario.cached) (mkFile 100 (Some Scenario.quantum_text))).
  - vm_compute. discriminate.
  - vm_compute. reflexivity.
  - vm_compute. reflexivity.
Defined.

Lemma keys_dset_same {V W} (k : string) (v : V) (w : W) (d : dict string V) (e : dict string W) :
  keys d = keys e → keys (dset k v d) = keys (dset k w e).
Proof.
  intros Hkeys. destruct (decide (k ∈ keys d)) as [Hk|Hk].
  - rewrite !keys_dset_present; [done| |done]. by rewrite <-Hkeys.
  - rewrite !keys_dset_absent; [by rewrite Hkeys| |done]. by rewrite <-Hkeys.
Qed.

(** A table read row by row is a dictionary with the lookup of the
    table. *)
Lemma dget_map_to_list {V} (p : string) (m : gmap string V) :
  dget p (map_to_list m) = m !! p.
Proof.
  destruct (m !! p) as [v|] eqn:Hp.
  - apply elem_dget_Some; [apply NoDup_fst_map_to_list | by apply elem_of_map_to_list].
  - apply dget_None. unfold keys. intros ([p' v] & -> & Hin%elem_of_map_to_list)%list_elem_of_fmap.
    simpl in Hp. congruence.
Qed.

Lemma get_embedding_fresh_row (p : string) (fs : Disk) (db : Store) :
  get_embedding p fs db
  = (λ row, (r_embedding row, r_content row, r_last_modified row))
      <$> (db !! p ≫= fresh_row fs p).
Proof.
  unfold get_embedding, fresh_row. destruct (fs !! p) as [file|], (db !! p) as [row|]; try done.
  simpl. by destruct (stale _ _).
Qed.

Lemma load_step_fresh_row (fs : Disk) (embeddings : dict string Embedding)
    (contents : dict string string) (p : string) (row : Row) :
  load_step fs (embeddings, contents) (p, row)
  = match fresh_row fs p row with
    | Some _ => (dset p (r_embedding row) embeddings, dset p (r_content row) contents)
    | None => (embeddings, contents)
    end.
Proof.
  unfold load_step, fresh_row. destruct (fs !! p); [|done]. by destruct (stale _ _).
Qed.

(** The loop of [load_all_embeddings] over rows with distinct paths. *)
Lemma load_all_fold (fs : Disk) (rows : list (string * Row))
    (embeddings : dict string Embedding) (contents : dict string string) :
  NoDup (keys rows) →
  keys embeddings = keys contents →
  let loaded := foldl (load_step fs) (embeddings, contents) rows in
  keys loaded.1 = keys loaded.2
  ∧ ∀ p,
      dget p loaded.1
      = match dget p rows ≫= fresh_row fs p with
        | Some row => Some (r_embedding row)
        | None => dget p embeddings
        end
      ∧ dget p loaded.2
        = match dget p rows ≫= fresh_row fs p with
          | Some row => Some (r_content row)
          | None => dget p contents
          end.
Proof.
  revert embeddings contents.
  induction rows as [|[k row] rows IH]; intros embeddings contents Hnd Hkeys; [done|].
  simpl in Hnd. apply NoDup_cons in Hnd as [Hk Hnd].
  cbn [foldl]. rewrite load_step_fresh_row.
  assert (dget k rows = None) as Hnone by by apply dget_None.
  destruct (fresh_row fs k row) as [row'|] eqn:Hfresh.
  - assert (row' = row) as ->.
    { unfold fresh_row in Hfresh. destruct (fs !! k); [|done].
      destruct (stale _ _); congruence. }
    destruct (IH (dset k (r_embedding row) embeddings) (dset k (r_content row) contents) Hnd)
      as [Hkeys' Hget]; [by apply keys_dset_same|].
    split; [done|]. intros p. destruct (Hget p) as [-> ->]. simpl.
    destruct (decide (k = p)) as [->|Hne].
    + rewrite Hnone. simpl. by rewrite Hfresh, !dget_dset_eq.
    + rewrite !dget_dset_ne by done. done.
  - destruct (IH embeddings contents Hnd Hkeys) as [Hkeys' Hget].
    split; [done|]. intros p. destruct (Hget p) as [-> ->]. simpl.
    destruct (decide (k = p)) as [->|Hne]; [|done].
    rewrite Hnone. simpl. by rewrite Hfresh.
Qed.

(** X4.  [load_all_embeddings] hands out two dictionaries with the same
    keys, and holds for a path exactly the embedding and the content that
    [get_embedding] answers for it: nothing for a row whose file is gone
    or was modified. *)
Theorem load_all_agrees_with_get (fs : Disk) (db : Store) :
  let loaded := load_all_embeddings fs db in
  keys loaded.1 = keys loaded.2
  ∧ ∀ filepath,
      dget filepath loaded.1 = (λ hit, hit.1.1) <$> get_embedding filepath fs db
      ∧ dget filepath loaded.2 = (λ hit, hit.1.2) <$> get_embedding filepath fs db.
Proof.
  destruct (load_all_fold fs (map_to_list db) [] []) as [Hkeys Hget];
    [apply NoDup_fst_map_to_list | done |].
  split; [done|]. intros filepath. destruct (Hget filepath) as [He Hc].
  unfold load_all_embeddings. rewrite He, Hc, get_embedding_fresh_row, dget_map_to_list.
  by destruct (db !! filepath ≫= fresh_row fs filepath).
Qed.

Lemma size_list_to_set_le (l : list Z) : size (list_to_set l : gset Z) ≤ length l.
Proof.
  induction l as [|x l IH].
  { by rewrite list_to_set_nil, size_empty. }
  rewrite list_to_set_cons, size_union_alt, size_singleton. simpl.
  pose proof (subseteq_size (list_to_set l ∖ {[x]}) (list_to_set l : gset Z)) as Hle.
  specialize (Hle ltac:(set_solver)). lia.
Qed.

Lemma length_filter_split {A} (P : A → Prop) `{∀ x, Decision (P x)} (l : list A) :
  length (filter P l) + length (filter (λ x, ¬ P x) l) = length l.
Proof.
  induction l as [|x l IH]; [done|]. rewrite !filter_cons.
  destruct (decide (P x)); [rewrite decide_False by naive_solver | rewrite decide_True by done];
    simpl; lia.
Qed.

(** X5.  In the statistics of the store the number of clusters and the
    number of rows without a cluster together never exceed the number of
    rows, which is the size of the table; an empty table has the average
    content length [0]. *)
Theorem get_stats_bounds (db : Store) :
  let unclustered :=
    length (filter (λ cluster_id, cluster_id = (-1)%Z) (r_cluster_id <$> (map_to_list db).*2)) in
  total_clusters (get_stats db) + unclustered ≤ total_files (get_stats db)
  ∧ total_files (get_stats db) = size db
  ∧ (db = ∅ → avg_content_length (get_stats db) = 0).
Proof.
  simpl. split_and!.
  - pose proof (size_list_to_set_le
                  (filter (λ c, c ≠ (-1)%Z) (r_cluster_id <$> (map_to_list db).*2))) as Hle.
    pose proof (length_filter_split (λ c, c = (-1)%Z) (r_cluster_id <$> (map_to_list db).*2))
      as Hsplit.
    rewrite length_fmap in Hsplit. lia.
  - by rewrite length_fmap, length_map_to_list.
  - intros ->. by rewrite map_to_list_empty.
Qed.

End StoreCacheFacts.

(** ** The suppression window of a move *)
Section MoveWindowFacts.
Import FileOps Monitor.



(** X7.  After a successful [safe_move] that shares no path with a
    sleeper still running, each of its two paths counts as a system
    operation at every instant before the settle delay of two seconds has
    passed, and at no instant from then on. *)
Theorem isolated_move_window (now t : Millis) (src dst : string)
    (fm : FileManager) (fs : Disk) :
  src ≠ dst → is_Some (fs !! src) →
  (∀ s, s ∈ sleepers fm → ({[s_dst s; s_src s]} : gset string) ## {[src; dst]}) →
  let fm' := (safe_move now src dst fm fs).1.1 in
  (is_system_operation src (advance t fm') = true ↔ t < now + SETTLE)
  ∧ (is_system_operation dst (advance t fm') = true ↔ t < now + SETTLE).
Proof.
  intros Hne Hsrc Hdisjoint. simpl.
  assert (∀ x, x = src ∨ x = dst →
            is_system_operation x (advance t (safe_move now src dst fm fs).1.1) = true
            ↔ t < now + SETTLE) as Hwindow.
  { intros x Hx. unfold is_system_operation. rewrite bool_decide_eq_true. split.
    - intros Hpending. destruct (decide (t < now + SETTLE)) as [|Hlate]; [done|].
      exfalso. revert Hpending.
      destruct (safe_move_success now src dst fm fs Hne Hsrc) as [fs' ->]. simpl.
      rewrite elem_of_run_sleepers. intros [_ Hdue].
      destruct (Hdue (mkSleeper (now + SETTLE) dst src)) as [Hd Hs].
      + apply list_elem_of_filter. split; [simpl; lia|].
        apply elem_of_app. right. left.
      + simpl in *. naive_solver.
    - intros Hearly.
      destruct (isolated_move_stays_pending now t src dst fm fs Hne Hsrc Hdisjoint Hearly)
        as [Hs Hd].
      destruct Hx as [->| ->]; done. }
  split; apply Hwindow; auto.
Qed.

Lemma isolated_move_window_witness :
  let fm' := (safe_move 0 Scenario.x_root Scenario.x_alpha Scenario.file_manager0
                        Scenario.one_file).1.1 in
  (is_system_operation Scenario.x_root (advance 1999 fm') = true ↔ 1999 < 0 + SETTLE)
  ∧ (is_system_operation Scenario.x_alpha (advance 1999 fm') = true ↔ 1999 < 0 + SETTLE).
Proof.
  apply (isolated_move_window 0 1999 Scenario.x_root Scenario.x_alpha
           Scenario.file_manager0 Scenario.one_file).
  - vm_compute. discriminate.
  - vm_compute. eexists. reflexivity.
  - intros s Hs. vm_compute in Hs. inversion Hs.
Defined.

End MoveWindowFacts.

(** ** The handler over a run *)
Section HandlerRunFacts.
Import FileOps Monitor.

Lemma on_any_event_cases (now : Millis) (fm : FileManager) (event : Event) (h : SEFSHandler) :
  on_any_event now fm event h = h
  ∨ (of_interest event = true
     ∧ on_any_event now fm event h
       = mkHandler (event_queue h ++ [event]) (Some (now + debounce_seconds))).
Proof.
  unfold on_any_event, of_interest.
  destruct (is_directory event); [by left|].
  destruct (is_metadata (src_path event)); [by left|].
  destruct (from_option is_metadata false (dest_of event)); [by left|].
  destruct (is_system_operation (src_path event) fm); [by left|].
  destruct (from_option _ false (dest_of event)); [by left | by right].
Qed.

Lemma timer_expires_cases (now : Millis) (h : SEFSHandler) :
  timer_expires now h = (h, [])
  ∨ (∃ deadline, debounce_timer h = Some deadline ∧ deadline ≤ now
     ∧ timer_expires now h
       = (mkHandler [] None, OneEvent <$> values (deduplicate (event_queue h)))).
Proof.
  unfold timer_expires. destruct (debounce_timer h) as [deadline|] eqn:Htimer; [|by left].
  destruct (deadline <=? now) eqn:Hdue; [|by left].
  apply Nat.leb_le in Hdue. unfold _process_queue.
  destruct (event_queue h) as [|e queue] eqn:Hqueue.
  - right. exists deadline. split_and!; try done. simpl. destruct h; simpl in *. by subst.
  - right. exists deadline. by split_and!.
Qed.

(** Every queued event passed the filter, and a queue that holds an
    event has its timer armed. *)
Lemma handling_invariant (h : SEFSHandler) :
  handling h →
  Forall (λ e, of_interest e = true) (event_queue h)
  ∧ (event_queue h = [] ∨ is_Some (debounce_timer h)).
Proof.
  induction 1 as [|now fm event h _ [IHq IHt]|now h _ [IHq IHt]].
  - split; [constructor | by left].
  - destruct (on_any_event_cases now fm event h) as [->|[Hint ->]]; [done|]. simpl.
    split; [|right; eauto]. apply Forall_app. split; [done|]. by apply Forall_singleton.
  - destruct (timer_expires_cases now h) as [->|(deadline & _ & _ & ->)]; [done|]. simpl.
    split; [constructor | by left].
Qed.

Lemma elem_of_values_deduplicate (e : Event) (queue : list Event) :
  e ∈ values (deduplicate queue) → e ∈ queue.
Proof.
  destruct (deduplicate_spec queue) as (_ & Hkeyed & Hget).
  unfold values. intros ([k e'] & -> & Hin)%list_elem_of_fmap. simpl.
  assert (NoDup (keys (deduplicate queue))) as Hnd by apply deduplicate_spec.
  pose proof (elem_dget_Some _ _ _ Hnd Hin) as Hlookup. rewrite Hget in Hlookup.
  unfold last_event_for in Hlookup. apply last_Some in Hlookup as [l Hl].
  assert (e' ∈ filter (λ e0, src_path e0 = k) queue) as Hfiltered
    by (rewrite Hl; apply elem_of_app; right; left).
  by apply list_elem_of_filter in Hfiltered as [_ ?].
Qed.

(** X8.  Whatever events the observer reports and whenever the timer
    looks at the clock, the callback is only ever handed single events
    that are no directory events and whose paths lie neither in the
    metadata folder nor on a database side file. *)
Theorem callback_gets_only_events_of_interest (h : SEFSHandler) (now : Millis) :
  handling h →
  Forall (λ call, ∃ e, call = OneEvent e ∧ of_interest e = true) (timer_expires now h).2.
Proof.
  intros [Hqueue _]%handling_invariant.
  destruct (timer_expires_cases now h) as [->|(deadline & _ & _ & ->)]; [constructor|].
  simpl. apply Forall_fmap, Forall_forall. intros e He%elem_of_values_deduplicate.
  exists e. split; [done|]. rewrite Forall_forall in Hqueue. by apply Hqueue.
Qed.

Lemma callback_gets_only_events_of_interest_witness :
  handling Scenario.watching
  ∧ Forall (λ call, ∃ e, call = OneEvent e ∧ of_interest e = true)
      (timer_expires 2000 Scenario.watching).2.
Proof.
  assert (handling Scenario.watching) as Hrun by apply handling_event, handling_start.
  split; [done|].
  apply (callback_gets_only_events_of_interest Scenario.watching 2000 Hrun).
Defined.

(** X9.  During a run no event waits in the queue without an armed
    timer: either the queue is empty, or there is a deadline before which
    the timer delivers nothing and leaves the handler alone, and from
    which on it empties the queue, disarms itself and delivers. *)
Theorem queued_events_have_a_deadline (h : SEFSHandler) :
  handling h →
  event_queue h = []
  ∨ ∃ deadline,
      debounce_timer h = Some deadline
      ∧ (∀ now, now < deadline → timer_expires now h = (h, []))
      ∧ (∀ now, deadline ≤ now →
           (timer_expires now h).1 = mkHandler [] None ∧ (timer_expires now h).2 ≠ []).
Proof.
  intros [_ [Hempty|[deadline Htimer]]]%handling_invariant; [by left|].
  destruct (event_queue h) as [|e queue] eqn:Hqueue; [by left|]. right.
  exists deadline. split_and!; [done| |].
  - intros now Hearly. unfold timer_expires. rewrite Htimer.
    destruct (deadline <=? now) eqn:Hdue; [|done]. apply Nat.leb_le in Hdue. lia.
  - intros now Hdue. unfold timer_expires, _process_queue. rewrite Htimer, Hqueue.
    apply Nat.leb_le in Hdue. rewrite Hdue. simpl. split; [done|].
    intros Hnone%fmap_nil_inv. unfold values in Hnone. apply fmap_nil_inv in Hnone.
    destruct (deduplicate_spec (e :: queue)) as (_ & _ & Hget).
    pose proof (Hget (src_path (default e (last (e :: queue))))) as Hlast.
    rewrite Hnone in Hlast. simpl in Hlast. symmetry in Hlast.
    unfold last_event_for in Hlast. apply last_None in Hlast.
    destruct (last (e :: queue)) as [e'|] eqn:He'; [|by apply last_None in He'].
    simpl in Hlast. apply last_Some in He' as [l Hl]. rewrite Hl in Hlast.
    rewrite filter_app, filter_cons_True in Hlast by done.
    by destruct (filter _ l).
Qed.

Lemma queued_events_have_a_deadline_witness :
  handling Scenario.watching
  ∧ (event_queue Scenario.watching = []
     ∨ ∃ deadline,
         debounce_timer Scenario.watching = Some deadline
         ∧ (∀ now, now < deadline →
              timer_expires now Scenario.watching = (Scenario.watching, []))
         ∧ (∀ now, deadline ≤ now →
              (timer_expires now Scenario.watching).1 = mkHandler [] None
              ∧ (timer_expires now Scenario.watching).2 ≠ [])).
Proof.
  assert (handling Scenario.watching) as Hrun by apply handling_event, handling_start.
  split; [done|].
  apply (queued_events_have_a_deadline Scenario.watching Hrun).
Defined.

End HandlerRunFacts.

(** ** The chunk index *)
Section ChunkIndexFacts.
Import Rag.
Context `{Externals}.

(** What the loop of [chunk_text] appends. *)
Lemma chunk_fold_shape (filepath : string) (W : list string → Prop)
    (ws : list (list string)) (acc : list (string * ChunkMeta)) :
  let good i (entry : string * ChunkMeta) :=
    m_filepath entry.2 = filepath
    ∧ m_filename entry.2 = OsPath.basename filepath
    ∧ m_chunk_index entry.2 = i
    ∧ m_cluster entry.2 = None
    ∧ 50 ≤ Py.len (Py.strip entry.1)
    ∧ ∃ chunk_words, W chunk_words ∧ entry.1 = Py.join " " chunk_words
                     ∧ m_word_count entry.2 = length chunk_words in
  Forall W ws →
  (∀ i entry, acc !! i = Some entry → good i entry) →
  ∀ i entry, foldl (chunk_step filepath) acc ws !! i = Some entry → good i entry.
Proof.
  intros good Hws. revert acc. induction Hws as [|w ws Hw _ IH]; intros acc Hacc; [done|].
  simpl. apply IH. unfold chunk_step.
  destruct (Py.len (Py.strip (Py.join " " w)) <? 50) eqn:Hshort; [done|].
  apply Nat.ltb_ge in Hshort.
  intros i entry [Hi|[Hi Hentry]]%lookup_app_Some; [by apply Hacc|].
  apply list_lookup_singleton_Some in Hentry as [Hzero <-].
  assert (i = length acc) as -> by lia.
  unfold good. simpl. split_and!; try done. by exists w.
Qed.

Lemma windows_bounded (words : list string) :
  Forall (λ w, length w ≤ Config.CHUNK_SIZE) (windows words).
Proof.
  unfold windows. apply Forall_fmap, Forall_forall. intros i _. simpl.
  unfold Py.slice. rewrite length_take. lia.
Qed.

(** X10.  The chunk at position [i] of [chunk_text] carries the index
    [i], the path and the base name of the file and no cluster; its text
    is the words of one window joined by single blanks, at most
    [CHUNK_SIZE] of them, counted in [word_count], and has at least 50
    characters once stripped. *)
Theorem chunk_text_shape (text filepath : string) (i : nat) :
  match chunk_text text filepath !! i with
  | Some (chunk, meta) =>
      m_filepath meta = filepath
      ∧ m_filename meta = OsPath.basename filepath
      ∧ m_chunk_index meta = i
      ∧ m_cluster meta = None
      ∧ 50 ≤ Py.len (Py.strip chunk)
      ∧ ∃ chunk_words,
          chunk_words ∈ windows (Py.split text)
          ∧ chunk = Py.join " " chunk_words
          ∧ m_word_count meta = length chunk_words
          ∧ length chunk_words ≤ Config.CHUNK_SIZE
  | None => True
  end.
Proof.
  destruct (chunk_text text filepath !! i) as [[chunk meta]|] eqn:Hi; [|done].
  pose proof (chunk_fold_shape filepath
                (λ w, w ∈ windows (Py.split text) ∧ length w ≤ Config.CHUNK_SIZE)
                (windows (Py.split text)) []) as Hshape.
  simpl in Hshape. destruct (Hshape) with (i := i) (entry := (chunk, meta))
    as (Hp & Hn & Hidx & Hcl & Hlen & w & [Hw Hbound] & Htext & Hcount); try done.
  - apply Forall_forall. intros w Hw. split; [done|].
    pose proof (windows_bounded (Py.split text)) as Hb. rewrite Forall_forall in Hb. auto.
  - split_and!; try done. by exists w.
Qed.

Lemma chunk_text_paths (text filepath : string) :
  Forall (λ entry, m_filepath entry.2 = filepath) (chunk_text text filepath).
Proof.
  apply Forall_lookup. intros i entry Hi.
  pose proof (chunk_fold_shape filepath (λ _, True) (windows (Py.split text)) []) as Hshape.
  simpl in Hshape. destruct (Hshape) with (i := i) (entry := entry) as [Hpath _]; try done.
  by apply Forall_forall.
Qed.

(** *** Adding, removing and relabelling a document *)

Lemma remove_document_idem (filepath : string) (col : Collection) :
  remove_document filepath (remove_document filepath col) = remove_document filepath col.
Proof.
  unfold remove_document. induction col as [|c col IH]; [done|].
  rewrite filter_cons. case_decide; [|done]. rewrite filter_cons_True by done. by rewrite IH.
Qed.

Lemma remove_document_all (filepath : string) (col : Collection) :
  Forall (λ c, m_filepath (c_meta c) = filepath) col → remove_document filepath col = [].
Proof.
  unfold remove_document. induction 1 as [|c col Hc _ IH]; [done|].
  by rewrite filter_cons_False by naive_solver.
Qed.

(** The chunks that [add_document] stores are those it stores into an
    empty collection, behind what is left of the collection. *)
Lemma add_document_split (filepath text : string) (cluster_id : Z) (topic_label : string)
    (col : Collection) :
  add_document filepath text cluster_id topic_label col
  = remove_document filepath col ++ add_document filepath text cluster_id topic_label [].
Proof.
  unfold add_document. simpl. destruct (chunk_text text filepath); [by rewrite app_nil_r|].
  destruct (mapM _ _); [done | by rewrite app_nil_r].
Qed.

Lemma add_document_paths (filepath text : string) (cluster_id : Z) (topic_label : string) :
  Forall (λ c, m_filepath (c_meta c) = filepath)
         (add_document filepath text cluster_id topic_label []).
Proof.
  unfold add_document. simpl.
  pose proof (chunk_text_paths text filepath) as Hpaths.
  destruct (chunk_text text filepath) as [|entry chunks] eqn:Hchunks; [constructor|].
  destruct (mapM _ _) as [embeddings|]; [|constructor].
  apply Forall_lookup. intros i c Hc. simpl.
  apply list_lookup_imap_Some in Hc as ([entry' emb] & Hzip & ->). simpl.
  apply lookup_zip_with_Some in Hzip as (e1 & e2 & [= <- <-] & He1 & _).
  rewrite Forall_lookup in Hpaths. by apply (Hpaths i).
Qed.

(** X11.  [add_document] replaces: removing the document afterwards
    leaves what removing it before would have left, and adding it again,
    with whatever text and cluster, leaves exactly what that last call
    alone would have stored. *)
Theorem add_document_replaces (filepath text text' : string) (cluster_id cluster_id' : Z)
    (topic_label topic_label' : string) (col : Collection) :
  remove_document filepath (add_document filepath text cluster_id topic_label col)
  = remove_document filepath col
  ∧ add_document filepath text' cluster_id' topic_label'
      (add_document filepath text cluster_id topic_label col)
    = add_document filepath text' cluster_id' topic_label' col.
Proof.
  assert (remove_document filepath (add_document filepath text cluster_id topic_label col)
          = remove_document filepath col) as Hremoved.
  { rewrite add_document_split. unfold remove_document at 1. rewrite filter_app.
    fold (remove_document filepath (remove_document filepath col)).
    fold (remove_document filepath (add_document filepath text cluster_id topic_label [])).
    rewrite remove_document_idem.
    rewrite (remove_document_all filepath (add_document _ _ _ _ []))
      by apply add_document_paths.
    by rewrite app_nil_r. }
  split; [done|].
  rewrite (add_document_split _ _ _ _ (add_document _ _ _ _ col)), Hremoved.
  by rewrite <-add_document_split.
Qed.

Lemma remove_document_paths (filepath : string) (col : Collection) :
  Forall (λ c, m_filepath (c_meta c) ≠ filepath) (remove_document filepath col).
Proof.
  apply Forall_forall. intros c Hc. unfold remove_document in Hc.
  by apply list_elem_of_filter in Hc as [? _].
Qed.

Lemma update_cluster_info_other (filepath : string) (cluster_id : Z) (topic_label : string)
    (col : Collection) :
  Forall (λ c, m_filepath (c_meta c) ≠ filepath) col →
  update_cluster_info filepath cluster_id topic_label col = col.
Proof.
  unfold update_cluster_info. induction 1 as [|c col Hc _ IH]; [done|].
  rewrite fmap_cons, IH. by rewrite decide_False.
Qed.

(** X12.  Relabelling a document that was just added gives what adding
    it under the new cluster would have given: [update_cluster_info]
    after [add_document] touches the cluster fields of the new chunks and
    nothing else. *)
Theorem relabel_after_add (filepath text : string) (cluster_id cluster_id' : Z)
    (topic_label topic_label' : string) (col : Collection) :
  update_cluster_info filepath cluster_id' topic_label'
    (add_document filepath text cluster_id topic_label col)
  = add_document filepath text cluster_id' topic_label' col.
Proof.
  rewrite (add_document_split _ _ cluster_id _ col), (add_document_split _ _ cluster_id' _ col).
  unfold update_cluster_info at 1. rewrite fmap_app. f_equal.
  - apply update_cluster_info_other, remove_document_paths.
  - unfold add_document. simpl.
    pose proof (chunk_text_paths text filepath) as Hpaths.
    destruct (chunk_text text filepath) as [|entry chunks] eqn:Hchunks; [done|].
    destruct (mapM _ _) as [embeddings|]; [|done].
    rewrite fmap_imap. apply imap_ext. intros i [entry' emb] Hzip. simpl.
    apply lookup_zip_with_Some in Hzip as (e1 & e2 & [= <- <-] & He1 & _).
    rewrite Forall_lookup in Hpaths. rewrite decide_True by by apply (Hpaths i).
    done.
Qed.

(** *** Identifiers *)

Lemma chunk_id_chars (filepath : string) (i : nat) :
  list_ascii_of_string (chunk_id filepath i)
  = (list_ascii_of_string filepath ++ list_ascii_of_string "__chunk")
      ++ "_"%char :: list_ascii_of_string (Py.str_of_int (Z.of_nat i)).
Proof.
  unfold chunk_id. rewrite !list_ascii_of_string_app, <-app_assoc. reflexivity.
Qed.

Lemma chunk_id_inj (filepath filepath' : string) (i j : nat) :
  chunk_id filepath i = chunk_id filepath' j → filepath = filepath' ∧ i = j.
Proof.
  intros Heq. apply (f_equal list_ascii_of_string) in Heq.
  rewrite !chunk_id_chars in Heq.
  apply app_cons_inj in Heq as [Hpath Hnum];
    try (apply numeric_no_underscore, str_of_int_numeric).
  apply app_inv_tail in Hpath. split; [by apply list_ascii_of_string_inj|].
  apply list_ascii_of_string_inj, str_of_int_inj in Hnum. lia.
Qed.

Lemma add_document_ids (filepath text : string) (cluster_id : Z) (topic_label : string) :
  ∃ n, c_id <$> add_document filepath text cluster_id topic_label []
       = chunk_id filepath <$> seq 0 n.
Proof.
  unfold add_document. simpl.
  destruct (chunk_text text filepath) as [|entry chunks]; [by exists 0|].
  destruct (mapM _ _) as [embeddings|]; [|by exists 0].
  exists (length (zip (entry :: chunks) embeddings)).
  rewrite fmap_imap, <-imap_seq_0. apply imap_ext. by intros i [entry' emb] _.
Qed.

Lemma well_keyed_sublist (col col' : Collection) :
  sublist col' col → well_keyed col → well_keyed col'.
Proof.
  intros Hsub [Hnd Hids]. split.
  - eapply sublist_NoDup; [done | by apply fmap_sublist].
  - unfold ids_by_path in *. rewrite Forall_forall in Hids |- *.
    intros c Hc. apply Hids. by eapply elem_of_sublist.
Qed.

(** X13.  The three operations on the collection keep it well keyed: no
    chunk identifier ever occurs twice, so [collection.add] never meets
    an identifier that is already taken. *)
Theorem chunk_ids_stay_unique (filepath text : string) (cluster_id : Z)
    (topic_label : string) (col : Collection) :
  well_keyed col →
  well_keyed (add_document filepath text cluster_id topic_label col)
  ∧ well_keyed (remove_document filepath col)
  ∧ well_keyed (update_cluster_info filepath cluster_id topic_label col).
Proof.
  intros Hcol.
  assert (well_keyed (remove_document filepath col)) as Hremoved.
  { eapply well_keyed_sublist; [|done]. apply sublist_filter. }
  split_and!; [|done|].
  - rewrite add_document_split.
    destruct (add_document_ids filepath text cluster_id topic_label) as [n Hnew].
    pose proof (add_document_paths filepath text cluster_id topic_label) as Hpaths.
    destruct Hremoved as [Hnd Hids]. split.
    + rewrite fmap_app. apply NoDup_app. split_and!; [done| |].
      * intros id Hold Hin. rewrite Hnew in Hin.
        apply list_elem_of_fmap in Hin as (i & -> & _).
        apply list_elem_of_fmap in Hold as (c & Hid & Hc).
        unfold ids_by_path in Hids. rewrite Forall_forall in Hids.
        destruct (Hids c Hc) as [j Hj]. rewrite Hj in Hid.
        apply chunk_id_inj in Hid as [Hpath _].
        unfold remove_document in Hc. apply list_elem_of_filter in Hc as [Hne _]. done.
      * rewrite Hnew. apply NoDup_fmap_2; [|apply NoDup_seq].
        intros i j Hij. by apply chunk_id_inj in Hij as [_ ?].
    + apply Forall_app. split; [done|].
      apply Forall_lookup. intros i c Hc.
      assert ((c_id <$> add_document filepath text cluster_id topic_label []) !! i
              = Some (c_id c)) as Hid by by rewrite list_lookup_fmap, Hc.
      rewrite Hnew, list_lookup_fmap in Hid.
      destruct (seq 0 n !! i) as [k|]; [|done]. simpl in Hid.
      rewrite Forall_lookup in Hpaths. rewrite (Hpaths i c Hc). exists k. congruence.
  - destruct Hcol as [Hnd Hids]. unfold update_cluster_info. split.
    + rewrite <-list_fmap_compose.
      rewrite (list_fmap_ext _ c_id col); [done|]. intros i c _. simpl. by case_decide.
    + unfold ids_by_path in *. apply Forall_fmap. eapply Forall_impl; [done|].
      intros c [i Hi]. exists i. simpl. by case_decide.
Qed.

End ChunkIndexFacts.


Section ChunkIndexExamples.
Import Rag Scenario.

Lemma chunk_ids_stay_unique_witness :
  well_keyed indexed
  ∧ well_keyed (@add_document externals a_txt (text_of_words 30) 1 "Quantum" indexed)
  ∧ well_keyed (remove_document a_txt indexed)
  ∧ well_keyed (update_cluster_info a_txt 1 "Quantum" indexed).
Proof.
  assert (well_keyed indexed) as Hcol.
  { split; [compute_done|]. apply Forall_singleton. by exists 0. }
  split; [done|].
  apply (@chunk_ids_stay_unique externals a_txt (text_of_words 30) 1 "Quantum" indexed Hcol).
Defined.

End ChunkIndexExamples.

(** ** Texts too short for the index *)
Section ShortTextFacts.
Import Rag.
Context `{Externals}.

(** The characters of some words, with one separator counted for each
    word. *)
Local Abbreviation weight words := (sum_list ((λ w, Py.len w + 1) <$> words)).

Lemma weight_cons (w : string) (words : list string) :
  weight (w :: words) = Py.len w + 1 + weight words.
Proof. reflexivity. Qed.

Lemma weight_app (ws ws' : list string) : weight (ws ++ ws') = weight ws + weight ws'.
Proof. rewrite fmap_app. unfold sum_list. apply sum_list_with_app. Qed.

Lemma len_append (a b : string) : Py.len (a +:+ b) = Py.len a + Py.len b.
Proof. unfold Py.len. induction a as [|c a IH]; simpl; [done | by rewrite IH]. Qed.

Lemma len_rev (s : string) : Py.len (String.rev s) = Py.len s.
Proof.
  unfold Py.len, String.rev.
  assert (∀ acc, String.length (String.rev_app s acc) = String.length s + String.length acc)
    as Hrev; [|by rewrite Hrev, Nat.add_0_r].
  induction s as [|c s IH]; intros acc; simpl; [done|]. rewrite IH. simpl. lia.
Qed.

Lemma len_lstrip (s : string) : Py.len (Py.lstrip s) ≤ Py.len s.
Proof.
  unfold Py.len. induction s as [|c s IH]; simpl; [done|].
  destruct (Py.is_space c); simpl; lia.
Qed.

Lemma len_strip (s : string) : Py.len (Py.strip s) ≤ Py.len s.
Proof.
  unfold Py.strip. rewrite len_rev.
  etrans; [apply len_lstrip|]. rewrite len_rev. apply len_lstrip.
Qed.

Lemma len_join (words : list string) :
  words ≠ [] → Py.len (Py.join " " words) + 1 = weight words.
Proof.
  induction words as [|w [|w' words] IH]; intros Hne; [done| |].
  - rewrite weight_cons. simpl. lia.
  - change (Py.join " " (w :: w' :: words)) with (w +:+ " " +:+ Py.join " " (w' :: words)).
    rewrite !len_append, (weight_cons w). specialize (IH ltac:(done)).
    change (Py.len " ") with 1. lia.
Qed.

Lemma weight_take (n : nat) (words : list string) : weight (take n words) ≤ weight words.
Proof.
  revert n. induction words as [|w words IH]; intros [|n]; try (simpl; lia).
  change (take (S n) (w :: words)) with (w :: take n words). rewrite !weight_cons.
  specialize (IH n). lia.
Qed.

Lemma weight_drop (n : nat) (words : list string) : weight (drop n words) ≤ weight words.
Proof.
  revert n. induction words as [|w words IH]; intros [|n]; try (simpl; lia).
  change (drop (S n) (w :: words)) with (drop n words). rewrite weight_cons.
  specialize (IH n). lia.
Qed.

Lemma weight_split_go (cur : option string) (s : string) :
  weight (Py.split_go cur s) ≤ Py.len (default EmptyString cur) + Py.len s + 1.
Proof.
  revert cur. induction s as [|c s IH]; intros cur.
  - destruct cur as [w|]; [|simpl; lia].
    change (Py.split_go (Some w) EmptyString) with [String.rev w].
    rewrite weight_cons, len_rev. simpl. lia.
  - change (Py.len (String c s)) with (S (Py.len s)).
    destruct (Py.is_space c) eqn:Hc.
    + assert (Py.split_go cur (String c s)
              = option_list (String.rev <$> cur) ++ Py.split_go None s) as ->
        by (simpl; by rewrite Hc).
      rewrite weight_app. specialize (IH None). simpl in IH.
      destruct cur as [w|].
      * change (option_list (String.rev <$> Some w)) with [String.rev w].
        rewrite weight_cons, len_rev. simpl. lia.
      * simpl. lia.
    + assert (Py.split_go cur (String c s)
              = Py.split_go (Some (String c (default EmptyString cur))) s) as ->
        by (simpl; by rewrite Hc).
      specialize (IH (Some (String c (default EmptyString cur)))).
      change (Py.len (default EmptyString (Some (String c (default EmptyString cur)))))
        with (S (Py.len (default EmptyString cur))) in IH. lia.
Qed.

(** No window of a text is longer than the text. *)
Lemma len_window (text : string) (i j : nat) :
  Py.len (Py.strip (Py.join " " (Py.slice (Py.split text) i j))) ≤ Py.len text.
Proof.
  etrans; [apply len_strip|].
  destruct (Py.slice (Py.split text) i j) as [|w ws] eqn:Hslice.
  { change (Py.len (Py.join " " [])) with 0. lia. }
  pose proof (len_join (w :: ws) ltac:(done)) as Hjoin. rewrite <-Hslice in Hjoin.
  pose proof (weight_take (j - i) (drop i (Py.split text))) as Htake.
  pose proof (weight_drop i (Py.split text)) as Hdrop.
  pose proof (weight_split_go None text) as Hsplit.
  change (Py.split_go None text) with (Py.split text) in Hsplit.
  change (Py.len (default EmptyString None)) with 0 in Hsplit.
  rewrite <-Hslice. unfold Py.slice in *. lia.
Qed.

(** X14.  A text of fewer than 50 characters yields no chunk, so
    [add_document] on it stores nothing: it only removes the chunks the
    file had. *)
Theorem short_text_is_not_indexed (filepath text : string) (cluster_id : Z)
    (topic_label : string) (col : Collection) :
  Py.len text < 50 →
  chunk_text text filepath = []
  ∧ add_document filepath text cluster_id topic_label col = remove_document filepath col.
Proof.
  intros Hshort.
  assert (chunk_text text filepath = []) as Hnone.
  { unfold chunk_text, windows.
    induction (Py.range_step (length (Py.split text)) stride) as [|i l IH]; [done|].
    rewrite fmap_cons. cbn [foldl]. unfold chunk_step at 2.
    pose proof (len_window text i (i + Config.CHUNK_SIZE)) as Hlen.
    destruct (_ <? 50) eqn:Hskip; [done|]. apply Nat.ltb_ge in Hskip. lia. }
  split; [done|]. unfold add_document. by rewrite Hnone.
Qed.

End ShortTextFacts.

Section ShortTextExamples.
Import Rag.

Lemma short_text_is_not_indexed_witness :
  chunk_text Scenario.quantum_text Scenario.a_txt = []
  ∧ @add_document Scenario.externals Scenario.a_txt Scenario.quantum_text 0 "Quantum" []
    = remove_document Scenario.a_txt [].
Proof.
  apply (@short_text_is_not_indexed Scenario.externals). vm_compute. lia.
Defined.

End ShortTextExamples.

(** ** The clusterer *)
Section ClustererShape.
Import Analyzer.
Context `{Externals}.

Lemma docs_of_absent (file_contents : dict string string) (label : Z)
    (items : list (string * Z)) :
  label ∉ items.*2 → docs_of file_contents label items = [].
Proof.
  unfold docs_of. induction items as [|[fname l] items IH]; [done|].
  rewrite fmap_cons, not_elem_of_cons. intros [Hne Hrest]. simpl.
  rewrite decide_False by done. by apply IH.
Qed.

Lemma docs_of_cons (file_contents : dict string string) (label : Z) (fname : string) (l : Z)
    (items : list (string * Z)) :
  docs_of file_contents label ((fname, l) :: items)
  = (if decide (l = label) then option_list (dget fname file_contents) else [])
    ++ docs_of file_contents label items.
Proof.
  unfold docs_of. simpl. case_decide; [|done]. by destruct (dget fname file_contents).
Qed.

(** The first loop of [cluster_files_with_topics] collects under every
    label that occurs the texts of the files with that label. *)
Lemma group_fold (file_contents : dict string string) (label : Z)
    (items : list (string * Z)) (acc : dict Z (list string)) :
  label ≠ (-1)%Z →
  dget label (foldl (group_step file_contents) acc items)
  = if decide (label ∈ items.*2)
    then Some (default [] (dget label acc) ++ docs_of file_contents label items)
    else dget label acc.
Proof.
  intros Hlabel. revert acc. induction items as [|[fname l] items IH]; intros acc.
  { cbn [foldl fmap list_fmap].
    destruct (decide (label ∈ [])) as [Hin|]; [by apply elem_of_nil in Hin | done]. }
  cbn [foldl]. rewrite IH, docs_of_cons. clear IH.
  assert (dget label (group_step file_contents acc (fname, l))
          = if decide (l = label)
            then Some (default [] (dget label acc) ++ option_list (dget fname file_contents))
            else dget label acc) as Hstep.
  { unfold group_step. destruct (decide (l = (-1)%Z)) as [->|Hl].
    - by rewrite decide_False.
    - destruct (decide (l = label)) as [->|Hne].
      + destruct (dget fname file_contents); simpl; rewrite dget_dset_eq; [done|].
        by rewrite app_nil_r.
      + destruct (dget fname file_contents); by rewrite dget_dset_ne. }
  rewrite Hstep. rewrite fmap_cons. simpl.
  destruct (decide (l = label)) as [->|Hne].
  - rewrite (decide_True (P := label ∈ label :: items.*2)) by left. simpl.
    destruct (decide (label ∈ items.*2)) as [Hin|Hout]; [by rewrite app_assoc|].
    by rewrite docs_of_absent, app_nil_r.
  - destruct (decide (label ∈ items.*2)) as [Hin|Hout].
    + by rewrite decide_True by by right.
    + rewrite decide_False; [done|]. rewrite not_elem_of_cons. naive_solver.
Qed.

Lemma dget_relabel {A B} (f : A → B) (label : Z) (d : dict Z A) :
  dget label ((λ '(l, x), (l, f x)) <$> d) = f <$> dget label d.
Proof.
  induction d as [|[l x] d IH]; [done|]. rewrite fmap_cons. simpl.
  case_decide; [done | apply IH].
Qed.

(** X15.  [cluster_files_with_topics] answers for exactly the files it
    was given, in their order, with the labels of DBSCAN in that order;
    a file labelled as noise is filed under "Uncategorized", and every
    other file under the topic label extracted from the texts of the
    files that carry its label, taken in dictionary order. *)
Theorem cluster_files_with_topics_entries (file_embeddings : dict string Embedding)
    (file_contents : dict string string) (eps : Q) (min_samples : nat) :
  let labels := dbscan eps min_samples (values file_embeddings) in
  let result := cluster_files_with_topics file_embeddings file_contents eps min_samples in
  keys result = keys file_embeddings
  ∧ (λ item, item.2.1) <$> result = labels
  ∧ Forall (λ item,
              item.2.2
              = if decide (item.2.1 = (-1)%Z) then "Uncategorized"
                else extract_topic_label
                       (docs_of file_contents item.2.1 (zip (keys file_embeddings) labels)))
           result.
Proof.
  simpl. unfold cluster_files_with_topics.
  set (labels := dbscan eps min_samples (values file_embeddings)).
  assert (length (keys file_embeddings) = length labels) as Hlen.
  { unfold labels. rewrite dbscan_length. unfold keys, values. by rewrite !length_fmap. }
  split_and!.
  - unfold keys at 1. rewrite <-list_fmap_compose.
    rewrite (list_fmap_ext _ fst (zip (keys file_embeddings) labels)) by (by intros ? [? ?]).
    apply fst_zip. lia.
  - rewrite <-list_fmap_compose.
    rewrite (list_fmap_ext _ snd (zip (keys file_embeddings) labels)) by (by intros ? [? ?]).
    apply snd_zip. lia.
  - apply Forall_fmap, Forall_forall. intros [fname label] Hin. simpl.
    destruct (decide (label = (-1)%Z)) as [Hnoise|Hlabel]; [done|].
    rewrite dget_relabel, group_fold by done.
    rewrite decide_True; [done|].
    apply list_elem_of_fmap. by exists (fname, label).
Qed.

(** *** The topic label *)

Lemma title_go_no_blank (prev : bool) (s : string) :
  Forall (λ c, c ≠ " "%char) (list_ascii_of_string s) →
  Forall (λ c, c ≠ " "%char) (list_ascii_of_string (Py.title_go prev s)).
Proof.
  revert prev. induction s as [|c s IH]; intros prev Hs; [constructor|].
  simpl in *. apply Forall_cons in Hs as [Hc Hs]. constructor; [|by apply IH].
  clear IH Hs. revert Hc.
  destruct prev, c as [[] [] [] [] [] [] [] []]; vm_compute; congruence.
Qed.

Lemma clean_no_blank (keyword : string) :
  Forall (λ c, c ≠ " "%char) (list_ascii_of_string (clean keyword)).
Proof.
  unfold clean, Py.title. apply title_go_no_blank. unfold Py.replace_char.
  induction keyword as [|c s IH]; [constructor|]. simpl. constructor; [|done].
  destruct (Ascii.eqb c " ") eqn:Hc; [done|]. by apply Ascii.eqb_neq in Hc.
Qed.

(** X16.  The topic label of a cluster depends on its first three texts
    only, and it never contains a blank. *)
Theorem extract_topic_label_shape (texts : list string) :
  extract_topic_label texts = extract_topic_label (take 3 texts)
  ∧ Forall (λ c, c ≠ " "%char) (list_ascii_of_string (extract_topic_label texts)).
Proof.
  split.
  - unfold extract_topic_label. by destruct texts as [|t1 [|t2 [|t3 texts]]].
  - unfold extract_topic_label. destruct texts as [|t texts]; [by repeat constructor|].
    destruct (extract_keywords _) as [[|keyword more]|];
      [by repeat constructor| |by repeat constructor].
    destruct (existsb _ _); [|apply clean_no_blank].
    destruct more as [|second more]; [by repeat constructor | apply clean_no_blank].
Qed.

End ClustererShape.

(** ** Ingestion and the cache *)
Section IngestionCacheFacts.
Import Main.
Context `{Externals}.

Lemma dset_dset {V} (k : string) (v : V) (d : dict string V) :
  dset k v (dset k v d) = dset k v d.
Proof. apply dset_id, dget_dset_eq. Qed.

(** The state in which a successful attempt leaves the process. *)
Lemma attempt_cases (filepath : string) (s : State) :
  attempt filepath s = (Returned false, s)
  ∨ attempt filepath s = (Raised, s)
  ∨ ∃ text emb file,
      disk s !! filepath = Some file ∧ f_text file = Some text ∧ encode text = Some emb
      ∧ attempt filepath s
        = (Returned true,
           mkState (dset filepath emb (file_embeddings s))
                   (dset filepath text (file_contents s))
                   (file_clusters s)
                   (Storage.save_embedding filepath emb text (f_mtime file) (-1) EmptyString
                                           (storage s))
                   (Rag.add_document filepath text
                      (default ((-1)%Z, EmptyString) (dget filepath (file_clusters s))).1
                      (default ((-1)%Z, EmptyString) (dget filepath (file_clusters s))).2
                      (rag_engine s))
                   (file_manager s) (disk s) (clock s)
                   (trace s ++ [CallStoreSave filepath] ++ [CallRagAdd filepath])).
Proof.
  unfold attempt, Analyzer.extract_text.
  destruct (disk s !! filepath) as [file|] eqn:Hfile; simpl; [|by left].
  destruct (f_text file) as [text|] eqn:Htext; simpl; [|by left].
  destruct (long_enough text); [|by left].
  destruct (encode text) as [emb|] eqn:Hemb; [|by right; left].
  right; right. exists text, emb, file. rewrite Hfile. split_and!; try done.
  unfold rag_add_document, storage_save_embedding, log, with_rag, with_storage. simpl.
  by rewrite <-app_assoc.
Qed.

Lemma retry_cases (attempts : nat) (filepath : string) (s : State) :
  retry attempts filepath s = (false, s)
  ∨ ∃ s', attempt filepath s = (Returned true, s') ∧ retry attempts filepath s = (true, s').
Proof.
  induction attempts as [|n IH]; simpl; [by left|].
  destruct (attempt_cases filepath s) as [Ha|[Ha|(text & emb & file & _ & _ & _ & Ha)]].
  - rewrite Ha. by left.
  - destruct IH as [IH|(s' & Hyes & _)]; [|congruence]. rewrite Ha. by left.
  - right. eexists. split; [done|]. by rewrite Ha.
Qed.

(** What [process_file] leaves behind. *)
Lemma process_file_cases (filepath : string) (s : State) :
  process_file filepath s = (false, s)
  ∨ ∃ s' emb text mtime,
      process_file filepath s = (true, s')
      ∧ file_embeddings s' = dset filepath emb (file_embeddings s)
      ∧ file_contents s' = dset filepath text (file_contents s)
      ∧ file_clusters s' = file_clusters s
      ∧ disk s' = disk s
      ∧ Storage.get_embedding filepath (disk s') (storage s') = Some (emb, text, mtime).
Proof.
  unfold process_file. destruct (eligible filepath); cbn [negb]; [|by left].
  destruct (Storage.get_embedding filepath (disk s) (storage s)) as [[[emb text] mtime]|] eqn:Hhit.
  - right. eexists _, emb, text, mtime. by split_and!.
  - destruct (retry_cases max_retries filepath s) as [->|(s' & Hattempt & ->)]; [by left|].
    right.
    destruct (attempt_cases filepath s)
      as [Hno|[Hno|(text & emb & file & Hfile & _ & _ & Hyes)]]; try congruence.
    rewrite Hyes in Hattempt. injection Hattempt as <-.
    eexists _, emb, text, (f_mtime file). split_and!; try done. simpl.
    unfold Storage.get_embedding, Storage.save_embedding.
    by rewrite Hfile, lookup_insert_eq, stale_same_instant.
Qed.


(** X18.  [process_file] is idempotent: on a file that was just
    processed a second call answers the same and changes nothing, and in
    particular embeds nothing and writes nothing to the store or the
    chunk index. *)
Theorem process_file_idempotent (filepath : string) (s : State) :
  process_file filepath (process_file filepath s).2 = process_file filepath s.
Proof.
  destruct (process_file_cases filepath s)
    as [Hno|(s' & emb & text & mtime & Hfirst & He & Hc & Hcl & Hd & Hhit)].
  { by rewrite Hno. }
  rewrite Hfirst. simpl. unfold process_file.
  assert (eligible filepath = true) as ->.
  { unfold process_file in Hfirst. by destruct (eligible filepath). }
  simpl. rewrite Hhit. f_equal. unfold with_contents, with_embeddings. simpl.
  rewrite He, Hc, !dset_dset. rewrite <-He, <-Hc. by destruct s'.
Qed.

End IngestionCacheFacts.

(** ** What a pass does to the store, the index and the disk *)
Section PassFacts.
Import Monitor Main.
Context `{Externals}.
#[local] Opaque target_path folder_name parent_name.

(** The three columns of a row that make a cache hit. *)
Local Abbreviation cached_columns row :=
  (Storage.r_embedding row, Storage.r_content row, Storage.r_last_modified row).

Lemma update_cluster_columns (filepath other : string) (cluster_id : Z)
    (topic_label : string) (db : Storage.Store) :
  (λ row, cached_columns row) <$> (Storage.update_cluster filepath cluster_id topic_label db !! other)
  = (λ row, cached_columns row) <$> (db !! other).
Proof.
  unfold Storage.update_cluster. destruct (decide (filepath = other)) as [->|Hne].
  - rewrite lookup_alter_eq. by destruct (db !! other).
  - by rewrite lookup_alter_ne.
Qed.

Lemma chunk_body_update (filepath : string) (cluster_id : Z) (topic_label : string)
    (col : Rag.Collection) :
  Rag.chunk_body <$> Rag.update_cluster_info filepath cluster_id topic_label col
  = Rag.chunk_body <$> col.
Proof.
  unfold Rag.update_cluster_info. rewrite <-list_fmap_compose. apply list_fmap_ext.
  intros i c _. simpl. by case_decide.
Qed.

(** One iteration of the organizer loop reaches the store through
    [update_cluster] and the index through [update_cluster_info] only. *)
Lemma organize_one_collaborators (s : State) (item : string * (Z * string)) :
  (storage (organize_one s item) = storage s
   ∨ ∃ p c l, storage (organize_one s item) = Storage.update_cluster p c l (storage s))
  ∧ (rag_engine (organize_one s item) = rag_engine s
     ∨ ∃ p c l, rag_engine (organize_one s item)
                = Rag.update_cluster_info p c l (rag_engine s)).
Proof.
  destruct item as [filepath [cluster_id topic_label]]. unfold organize_one.
  destruct (decide (cluster_id = (-1)%Z)); [by split; left|].
  destruct (decide (parent_name filepath = folder_name cluster_id topic_label)).
  { split; [right; by eexists _, _, _ | by left]. }
  destruct (decide (filepath = target_path filepath cluster_id topic_label)); [by split; left|].
  unfold file_manager_safe_move. simpl.
  destruct (FileOps.safe_move _ _ _ _ _) as [[fm fs] steps]. simpl.
  split; right; by eexists _, _, _.
Qed.

Lemma organize_all_collaborators (items : dict string (Z * string)) (s : State) :
  (∀ p, (λ row, cached_columns row) <$> (storage (foldl organize_one s items) !! p)
        = (λ row, cached_columns row) <$> (storage s !! p))
  ∧ Rag.chunk_body <$> rag_engine (foldl organize_one s items)
    = Rag.chunk_body <$> rag_engine s.
Proof.
  revert s. induction items as [|item items IH]; intros s; [done|].
  cbn [foldl]. destruct (IH (organize_one s item)) as [Hdb Hcol].
  destruct (organize_one_collaborators s item) as [Hs Hr]. split.
  - intros p. rewrite Hdb. destruct Hs as [->|(q & c & l & ->)]; [done|].
    apply update_cluster_columns.
  - rewrite Hcol. destruct Hr as [->|(q & c & l & ->)]; [done|].
    apply chunk_body_update.
Qed.

Lemma recluster_collaborators (s : State) :
  (∀ p, (λ row, cached_columns row) <$> (storage (recluster_and_organize s) !! p)
        = (λ row, cached_columns row) <$> (storage s !! p))
  ∧ Rag.chunk_body <$> rag_engine (recluster_and_organize s)
    = Rag.chunk_body <$> rag_engine s.
Proof.
  destruct (recluster_cases s) as [[_ ->]|[[_ ->]| ->]]; [done..|].
  apply (organize_all_collaborators _ (prune (log CallRecluster s))).
Qed.

(** X19.  A pass never adds, removes or re-keys a row of the store, and
    never touches the embedding, the content or the modification time of
    a row: [get_embedding] answers after the pass what it answered
    before, for every path and every state of the disk.  Nor does a pass
    add, remove or re-key a chunk of the index: every chunk keeps its
    identifier, text, vector, path, file name, index and word count.  So
    the row and the chunks of a file that the pass moved stay under the
    old path. *)
Theorem pass_keeps_store_and_index (s : State) :
  dom (storage (recluster_and_organize s)) = dom (storage s)
  ∧ (∀ filepath fs,
       Storage.get_embedding filepath fs (storage (recluster_and_organize s))
       = Storage.get_embedding filepath fs (storage s))
  ∧ Rag.chunk_body <$> rag_engine (recluster_and_organize s)
    = Rag.chunk_body <$> rag_engine s.
Proof.
  destruct (recluster_collaborators s) as [Hdb Hcol]. split_and!; [| |done].
  - apply set_eq. intros p. rewrite !elem_of_dom. specialize (Hdb p).
    destruct (storage (recluster_and_organize s) !! p), (storage s !! p); try done;
      split; intros [? ?]; done.
  - intros filepath fs. specialize (Hdb filepath).
    unfold Storage.get_embedding. destruct (fs !! filepath) as [file|]; [|done].
    destruct (storage (recluster_and_organize s) !! filepath) as [row'|],
             (storage s !! filepath) as [row|]; try done.
    simpl in Hdb. injection Hdb as -> -> ->. done.
Qed.


(** *** Events on one file *)

Lemma chunk_paths_of_bodies (cols cols' : Rag.Collection) (P : string → Prop) :
  Rag.chunk_body <$> cols' = Rag.chunk_body <$> cols →
  Forall (λ c, P (Rag.m_filepath (Rag.c_meta c))) cols →
  Forall (λ c, P (Rag.m_filepath (Rag.c_meta c))) cols'.
Proof.
  intros Hbodies Hcols. apply Forall_forall. intros c Hc.
  assert (Rag.chunk_body c ∈ Rag.chunk_body <$> cols) as Hin.
  { rewrite <-Hbodies. apply list_elem_of_fmap. by exists c. }
  apply list_elem_of_fmap in Hin as (c0 & Heq & Hc0).
  rewrite Forall_forall in Hcols. specialize (Hcols c0 Hc0).
  unfold Rag.chunk_body in Heq. by injection Heq as _ _ _ -> _ _ _.
Qed.

(** X21.  A deleted event on a file ends with the file purged from the
    store and from the index, after exactly one pass: no row and no chunk
    is left under its path. *)
Theorem deleted_event_purges (src : string) (s : State) :
  let result := event_callback (OneEvent (mkEvent false src Deleted)) s in
  result.1 = Returned ()
  ∧ storage result.2 !! src = None
  ∧ Forall (λ c, Rag.m_filepath (Rag.c_meta c) ≠ src) (rag_engine result.2)
  ∧ recluster_passes result.2 = recluster_passes s + 1.
Proof.
  cbv zeta.
  assert (event_callback (OneEvent (mkEvent false src Deleted)) s
          = (Returned (), delete_one s src)) as -> by reflexivity.
  unfold delete_one. set (s1 := rag_remove_document src _). cbn [fst snd].
  destruct (recluster_collaborators s1) as [Hdb Hcol]. split_and!; [done| | |].
  - specialize (Hdb src).
    destruct (storage (recluster_and_organize s1) !! src); [|done].
    subst s1. simpl in Hdb. unfold Storage.delete_embedding in Hdb.
    by rewrite lookup_delete_eq in Hdb.
  - apply (chunk_paths_of_bodies (rag_engine s1) _ (λ p, p ≠ src) Hcol).
    subst s1. simpl. apply remove_document_paths.
  - rewrite recluster_and_organize_passes. f_equal. subst s1.
    unfold recluster_passes. simpl. rewrite !filter_app, !length_app.
    rewrite !filter_cons_False, !filter_nil by done. simpl. lia.
Qed.

(** X22.  A moved event on a file that has an embedding is followed
    without embedding the file again and without a pass: the embedding is
    carried over to the new path, the row of the store is renamed, and
    the disk and the pending moves are left alone. *)
Theorem moved_event_rekeys (src dest : string) (s : State) (emb : Embedding)
    (db' : Storage.Store) :
  dget src (file_embeddings s) = Some emb →
  Storage.move_embedding src dest (storage s) = Some db' →
  let result := event_callback (OneEvent (mkEvent false src (Moved dest))) s in
  result.1 = Returned ()
  ∧ file_embeddings result.2 = dset dest emb (ddel src (file_embeddings s))
  ∧ storage result.2 = db'
  ∧ recluster_passes result.2 = recluster_passes s
  ∧ disk result.2 = disk s
  ∧ file_manager result.2 = file_manager s.
Proof.
  intros Hemb Hmove. cbv zeta.
  assert (dmem src (file_embeddings s) = true) as Hmem.
  { apply dmem_true, dget_is_Some. eauto. }
  unfold event_callback, plan_events, plan_event. cbn [is_directory kind src_path].
  rewrite Hmem. unfold dpop. rewrite Hemb. cbn [from_option].
  destruct (dmem src (file_contents _)), (dmem src (file_clusters _));
    cbn [storage with_clusters with_contents with_embeddings];
    rewrite Hmove; cbn; (split_and!; [done..| |done|done]);
    unfold recluster_passes; rewrite !filter_app, !length_app;
    rewrite !filter_cons_False, !filter_nil by done; simpl; lia.
Qed.

End PassFacts.

Section PassExamples.
Import Monitor Main Scenario.


Lemma moved_event_rekeys_witness :
  dget a_txt (file_embeddings knowing) = Some [1%Q; 0%Q]
  ∧ Storage.move_embedding a_txt x_root (storage knowing) = Some renamed_store
  ∧ (@event_callback externals (OneEvent (mkEvent false a_txt (Moved x_root))) knowing).1
    = Returned ()
  ∧ file_embeddings
      (@event_callback externals (OneEvent (mkEvent false a_txt (Moved x_root))) knowing).2
    = dset x_root [1%Q; 0%Q] (ddel a_txt (file_embeddings knowing))
  ∧ storage (@event_callback externals (OneEvent (mkEvent false a_txt (Moved x_root))) knowing).2
    = renamed_store
  ∧ recluster_passes
      (@event_callback externals (OneEvent (mkEvent false a_txt (Moved x_root))) knowing).2
    = recluster_passes knowing
  ∧ disk (@event_callback externals (OneEvent (mkEvent false a_txt (Moved x_root))) knowing).2
    = disk knowing
  ∧ file_manager
      (@event_callback externals (OneEvent (mkEvent false a_txt (Moved x_root))) knowing).2
    = file_manager knowing.
Proof.
  assert (dget a_txt (file_embeddings knowing) = Some [1%Q; 0%Q]) as Hemb
    by (vm_compute; reflexivity).
  assert (Storage.move_embedding a_txt x_root (storage knowing) = Some renamed_store) as Hmove
    by (vm_compute; reflexivity).
  do 2 (split; [done|]).
  apply (@moved_event_rekeys externals a_txt x_root knowing [1%Q; 0%Q] renamed_store Hemb Hmove).
Defined.

End PassExamples.

(** ** The read-only endpoints *)
Section EndpointFacts.
Import Main.

(** *** GET /clusters *)

Lemma members_snoc (cid : Z) (topic : string) (done : dict string (Z * string))
    (item : string * (Z * string)) :
  members cid topic (done ++ [item])
  = members cid topic done
    ++ (if decide (item.2 = (cid, topic)) then [OsPath.basename item.1] else []).
Proof.
  unfold members, keys. rewrite filter_app, !fmap_app. f_equal.
  rewrite filter_cons, filter_nil. by case_decide.
Qed.

(** What the loop of [get_clusters] has built after the entries [done]:
    one record under the name of each cluster that has a member. *)
Local Abbreviation grouped acc done :=
  (NoDup (keys acc)
   ∧ (∀ k, k ∈ keys acc → ∃ cid topic, cid ≠ (-1)%Z ∧ k = topic +:+ "_" +:+ Py.str_of_int cid)
   ∧ ∀ cid topic, cid ≠ (-1)%Z →
       dget (topic +:+ "_" +:+ Py.str_of_int cid) acc
       = if decide (members cid topic done = []) then None
         else Some (mkClusterInfo cid topic (members cid topic done))).

Lemma clusters_step_grouped (acc : dict string ClusterInfo) (done : dict string (Z * string))
    (item : string * (Z * string)) :
  grouped acc done → grouped (clusters_step acc item) (done ++ [item]).
Proof.
  intros (Hnd & Hkeys & Hget). destruct item as [filepath [c t]]. unfold clusters_step.
  destruct (decide (c ≠ (-1)%Z)) as [Hc|Hnoise].
  - set (k0 := t +:+ "_" +:+ Py.str_of_int c).
    set (clusters1 := if dmem k0 acc then acc
                      else dset k0 (mkClusterInfo c t []) acc).
    assert (dget k0 clusters1 = Some (mkClusterInfo c t (members c t done))) as Hinfo.
    { subst clusters1. pose proof (Hget c t Hc) as Hk0. fold k0 in Hk0.
      destruct (dmem k0 acc) eqn:Hmem.
      - apply dmem_true, dget_is_Some in Hmem as [info Hinfo].
        rewrite Hinfo in Hk0 |- *.
        by destruct (decide (members c t done = [])).
      - assert (dget k0 acc = None) as Hnone.
        { apply dget_None. intros Hin%dmem_true. congruence. }
        rewrite Hnone in Hk0. rewrite dget_dset_eq.
        destruct (decide (members c t done = [])) as [->|]; done. }
    assert (NoDup (keys clusters1)
            ∧ ∀ k, k ∈ keys clusters1 → k = k0 ∨ k ∈ keys acc) as [Hnd1 Hkeys1].
    { subst clusters1. destruct (dmem k0 acc); [by auto|].
      split; [by apply NoDup_keys_dset|]. intros k. by rewrite elem_of_keys_dset. }
    rewrite Hinfo. simpl. split_and!.
    + by apply NoDup_keys_dset.
    + intros k [->|Hk%Hkeys1]%elem_of_keys_dset; [by exists c, t|].
      destruct Hk as [->|Hk]; [by exists c, t | by apply Hkeys].
    + intros cid topic Hcid. rewrite members_snoc. simpl.
      destruct (decide ((c, t) = (cid, topic))) as [[= <- <-]|Hother].
      * fold k0. rewrite dget_dset_eq.
        rewrite decide_False; [done|]. by destruct (members c t done).
      * assert (topic +:+ "_" +:+ Py.str_of_int cid ≠ k0) as Hne.
        { intros [-> ->]%folder_suffix_inj. done. }
        rewrite dget_dset_ne, app_nil_r by done.
        subst clusters1. destruct (dmem k0 acc); [by apply Hget|].
        rewrite dget_dset_ne by done. by apply Hget.
  - split_and!; [done..|]. intros cid topic Hcid. rewrite members_snoc. simpl.
    destruct (decide ((c, t) = (cid, topic))) as [[= -> _]|_]; [done|].
    rewrite app_nil_r. by apply Hget.
Qed.

Lemma clusters_fold_grouped (rest done : dict string (Z * string))
    (acc : dict string ClusterInfo) :
  grouped acc done → grouped (foldl clusters_step acc rest) (done ++ rest).
Proof.
  revert acc done. induction rest as [|item rest IH]; intros acc done Hacc.
  { by rewrite app_nil_r. }
  cbn [foldl]. rewrite cons_middle, app_assoc. apply IH. by apply clusters_step_grouped.
Qed.

(** X23.  [get_clusters] lists every cluster that has a file exactly
    once, never the noise, and under each cluster the base names of
    exactly its files, in dictionary order. *)
Theorem get_clusters_lists_members (s : State) :
  Forall (λ info, ci_id info ≠ (-1)%Z
                  ∧ ci_files info ≠ []
                  ∧ ci_files info = members (ci_id info) (ci_topic info) (file_clusters s))
         (get_clusters s)
  ∧ NoDup ((λ info, (ci_id info, ci_topic info)) <$> get_clusters s)
  ∧ Forall (λ item, item.2.1 ≠ (-1)%Z →
                    ∃ info, info ∈ get_clusters s ∧ (ci_id info, ci_topic info) = item.2)
           (file_clusters s).
Proof.
  destruct (clusters_fold_grouped (file_clusters s) [] []) as (Hnd & Hkeys & Hget).
  { split_and!; [apply NoDup_nil_2 | by intros k ?%elem_of_nil | done]. }
  rewrite app_nil_l in Hget. unfold get_clusters.
  set (acc := foldl clusters_step [] (file_clusters s)) in *.
  assert (∀ k info, (k, info) ∈ acc →
            ci_id info ≠ (-1)%Z ∧ k = ci_topic info +:+ "_" +:+ Py.str_of_int (ci_id info)
            ∧ ci_files info ≠ []
            ∧ ci_files info = members (ci_id info) (ci_topic info) (file_clusters s))
    as Hentries.
  { intros k info Hin.
    destruct (Hkeys k) as (cid & topic & Hcid & ->).
    { unfold keys. apply list_elem_of_fmap. by exists (k, info). }
    pose proof (elem_dget_Some _ _ _ Hnd Hin) as Hlookup.
    rewrite (Hget cid topic Hcid) in Hlookup.
    destruct (decide (members cid topic (file_clusters s) = [])); [done|].
    injection Hlookup as <-. done. }
  split_and!.
  - apply Forall_forall. intros info ([k info'] & -> & Hin)%list_elem_of_fmap.
    destruct (Hentries k info' Hin) as (? & _ & ? & ?). done.
  - unfold values. rewrite <-list_fmap_compose. apply NoDup_fmap_2_strong.
    + intros [k1 i1] [k2 i2] H1 H2 Heq. simpl in Heq. injection Heq as Hid Htopic.
      destruct (Hentries k1 i1 H1) as (_ & Hk1 & _), (Hentries k2 i2 H2) as (_ & Hk2 & _).
      assert (k1 = k2) as <- by congruence.
      pose proof (elem_dget_Some _ _ _ Hnd H1). pose proof (elem_dget_Some _ _ _ Hnd H2).
      congruence.
    + eapply NoDup_fmap_1. exact Hnd.
  - apply Forall_forall. intros [filepath [cid topic]] Hitem Hcid. simpl in *.
    pose proof (Hget cid topic Hcid) as Hlookup.
    rewrite decide_False in Hlookup.
    + exists (mkClusterInfo cid topic (members cid topic (file_clusters s))).
      split; [|done]. apply list_elem_of_fmap. eexists (_, _). split; [done|].
      by apply dget_Some_elem.
    + unfold members, keys. intros Hnil. apply fmap_nil_inv, fmap_nil_inv in Hnil.
      assert ((filepath, (cid, topic)) ∈ filter (λ item, item.2 = (cid, topic)) (file_clusters s))
        as Hin by by apply list_elem_of_filter.
      rewrite Hnil in Hin. by apply elem_of_nil in Hin.
Qed.

(** *** GET /graph *)

(** A link both of whose ends are nodes. *)
Local Abbreviation closed nodes link :=
  (l_source link ∈ n_id <$> (nodes : list Node)
   ∧ ∃ target, l_target link = Some target ∧ target ∈ n_id <$> (nodes : list Node)).

Lemma closed_more (nodes : list Node) (node : Node) (links : list Link) :
  Forall (λ link, closed nodes link) links →
  Forall (λ link, closed (nodes ++ [node]) link) links.
Proof.
  intros Hlinks. eapply Forall_impl; [exact Hlinks|].
  intros link [Hsrc (target & Htarget & Hin)]. rewrite fmap_app. split.
  - apply elem_of_app. by left.
  - exists target. split; [done|]. apply elem_of_app. by left.
Qed.

(** What the two loops of [get_graph] keep true. *)
Local Abbreviation linked seen nodes links done :=
  ("ROOT" ∈ n_id <$> nodes
   ∧ (∀ key id, dget key seen = Some id → id ∈ n_id <$> nodes)
   ∧ Forall (λ item, item.2.1 ≠ (-1)%Z → is_Some (dget item.2 seen)) done
   ∧ Forall (λ link, closed nodes link) links
   ∧ length nodes = S (length links)).

Lemma linked_more (seen : dict (Z * string) string) (nodes : list Node) (links : list Link)
    (done : dict string (Z * string)) (node : Node) (link : Link) :
  linked seen nodes links done →
  closed (nodes ++ [node]) link →
  linked seen (nodes ++ [node]) (links ++ [link]) done.
Proof.
  intros (Hroot & Hseen & Hdone & Hlinks & Hlen) Hlink. split_and!; [| |done| |].
  - rewrite fmap_app. apply elem_of_app. by left.
  - intros key id Hkey. rewrite fmap_app. apply elem_of_app. left. by eapply Hseen.
  - apply Forall_app. split; [by apply closed_more | by apply Forall_singleton].
  - rewrite !length_app. simpl. lia.
Qed.

(** One iteration of the loop over the topics. *)
Lemma topic_step_linked (seen : dict (Z * string) string) (nodes : list Node)
    (links : list Link) (done : dict string (Z * string)) (item : string * (Z * string)) :
  linked seen nodes links done →
  linked (topic_step (seen, nodes, links) item).1.1 (topic_step (seen, nodes, links) item).1.2
         (topic_step (seen, nodes, links) item).2 (done ++ [item]).
Proof.
  intros Hinv. destruct item as [filepath [cid topic]]. unfold topic_step.
  destruct (decide (cid = (-1)%Z)) as [Hnoise|Hcid].
  { destruct Hinv as (Hroot & Hseen & Hdone & Hlinks & Hlen). simpl. split_and!; try done.
    apply Forall_app. split; [done|]. by apply Forall_singleton. }
  destruct (dmem (cid, topic) seen) eqn:Hmem.
  { destruct Hinv as (Hroot & Hseen & Hdone & Hlinks & Hlen). simpl. split_and!; try done.
    apply Forall_app. split; [done|].
    apply Forall_singleton. intros _. by apply dget_is_Some, dmem_true. }
  simpl.
  set (node_id := topic +:+ "_" +:+ Py.str_of_int cid).
  destruct (linked_more seen nodes links done (mkNode node_id "topic" 20 topic None None)
              (mkLink "ROOT" (Some node_id)) Hinv)
    as (Hroot & Hseen & Hdone & Hlinks & Hlen).
  { simpl. rewrite fmap_app. destruct Hinv as (Hroot & _). split.
    - apply elem_of_app. by left.
    - eexists. split; [done|]. apply elem_of_app. right. left. }
  split_and!; try done.
  - intros key id Hkey. destruct (decide (key = (cid, topic))) as [->|Hne].
    + rewrite dget_dset_eq in Hkey. injection Hkey as <-.
      rewrite fmap_app. apply elem_of_app. right. left.
    + rewrite dget_dset_ne in Hkey by done. by eapply Hseen.
  - apply Forall_app. split.
    + eapply Forall_impl; [exact Hdone|]. intros item Hitem Hc.
      destruct (decide (item.2 = (cid, topic))) as [->|Hne].
      * rewrite dget_dset_eq. eauto.
      * rewrite dget_dset_ne by done. auto.
    + apply Forall_singleton. intros _. simpl. rewrite dget_dset_eq. eauto.
Qed.

Lemma topic_fold (rest done : dict string (Z * string))
    (acc : dict (Z * string) string * list Node * list Link) :
  linked acc.1.1 acc.1.2 acc.2 done →
  linked (foldl topic_step acc rest).1.1 (foldl topic_step acc rest).1.2
         (foldl topic_step acc rest).2 (done ++ rest).
Proof.
  revert done acc. induction rest as [|item rest IH]; intros done [[seen nodes] links] Hinv.
  { by rewrite app_nil_r. }
  cbn [foldl]. rewrite cons_middle, app_assoc. apply IH. by apply topic_step_linked.
Qed.

(** The loop over the files, with the topics all seen. *)
Lemma file_fold (seen : dict (Z * string) string) (rest : dict string (Z * string))
    (acc : list Node * list Link) :
  Forall (λ item, item.2.1 ≠ (-1)%Z → is_Some (dget item.2 seen)) rest →
  linked seen acc.1 acc.2 (@nil (string * (Z * string))) →
  linked seen (foldl (file_step seen) acc rest).1 (foldl (file_step seen) acc rest).2
         (@nil (string * (Z * string))).
Proof.
  revert acc. induction rest as [|[filepath [cid topic]] rest IH];
    intros [nodes links] Hrest Hinv; [done|].
  apply Forall_cons in Hrest as [Hitem Hrest]. cbn [foldl]. apply IH; [done|].
  unfold file_step. simpl in Hitem |- *.
  destruct (decide (cid ≠ (-1)%Z)) as [Hcid|Hnoise]; simpl; apply linked_more; try done.
  - destruct (Hitem Hcid) as [id Hid]. destruct Hinv as (_ & Hseen & _).
    simpl. rewrite fmap_app. split.
    + apply elem_of_app. right. left.
    + exists id. split; [done|]. apply elem_of_app. left. by eapply Hseen.
  - destruct Hinv as (Hroot & _). simpl. rewrite fmap_app. split.
    + apply elem_of_app. right. left.
    + exists "ROOT". split; [done|]. apply elem_of_app. by left.
Qed.

(** X24.  The graph of [get_graph] has no dangling link: both ends of
    every link are identifiers of nodes of the graph, the target of a
    file link is never missing, and there is exactly one link for every
    node but the root. *)
Theorem get_graph_is_closed `{Metrics} (s : State) :
  Forall (λ link, l_source link ∈ n_id <$> g_nodes (get_graph s)
                  ∧ ∃ target, l_target link = Some target
                              ∧ target ∈ n_id <$> g_nodes (get_graph s))
         (g_links (get_graph s))
  ∧ length (g_nodes (get_graph s)) = S (length (g_links (get_graph s)))
  ∧ g_entropy (get_graph s) = calculate_entropy s.
Proof.
  unfold get_graph.
  pose proof (topic_fold (file_clusters s) []
                ([], [mkNode "ROOT" "root" 30 "Semantic Core" None
                              (Some (entropy (calculate_entropy s)))], [])) as Htopics.
  destruct (foldl topic_step _ (file_clusters s)) as [[seen nodes] links].
  destruct Htopics as (Hroot & Hseen & Hall & Hlinks & Hlen).
  { split_and!; [by left | done | constructor | constructor | done]. }
  simpl in Hroot, Hseen, Hall, Hlinks, Hlen.
  pose proof (file_fold seen (file_clusters s) (nodes, links) Hall) as Hfiles.
  destruct (foldl (file_step seen) _ (file_clusters s)) as [nodes' links'].
  destruct Hfiles as (_ & _ & _ & Hclosed & Hlen').
  { split_and!; [done | done | constructor | done | done]. }
  done.
Qed.

(** *** Entropy *)

(** X25.  Whatever the silhouette score, the entropy that
    [calculate_entropy] reports lies between 0 and 1 and the separation
    is not negative; with fewer than two embedded files the report is
    entropy 0, cohesion 1, separation 0. *)
Theorem entropy_is_clamped `{Metrics} (s : State) :
  (0 <= entropy (calculate_entropy s))%Q
  ∧ (entropy (calculate_entropy s) <= 1)%Q
  ∧ (0 <= separation (calculate_entropy s))%Q
  ∧ (length (file_embeddings s) < 2 → calculate_entropy s = mkEntropy 0 1 0).
Proof.
  unfold calculate_entropy.
  destruct (length (file_embeddings s) <? 2) eqn:Hfew.
  { split_and!; simpl; try (compute; discriminate). done. }
  apply Nat.ltb_ge in Hfew.
  assert (∀ e, length (file_embeddings s) < 2 → e = mkEntropy 0 1 0) as Hno by (intros; lia).
  destruct (1 <? size _); [|split_and!; simpl; try (compute; discriminate); apply Hno].
  destruct (silhouette_score _ _) as [silhouette|];
    [|split_and!; simpl; try (compute; discriminate); apply Hno].
  simpl. split_and!; [apply Q.le_max_l | | apply Qabs_nonneg | apply Hno].
  apply Q.max_lub; [compute; discriminate | apply Q.le_min_l].
Qed.

End EndpointFacts.

(** ** POST /move-file *)
Section MoveFileFacts.
Import Main.
#[local] Opaque target_path folder_name parent_name.

Lemma list_ascii_of_rev (s : string) :
  list_ascii_of_string (String.rev s) = rev (list_ascii_of_string s).
Proof.
  unfold String.rev.
  assert (∀ acc, list_ascii_of_string (String.rev_app s acc)
                 = rev (list_ascii_of_string s) ++ list_ascii_of_string acc) as Hrev;
    [|by rewrite Hrev, app_nil_r].
  induction s as [|c s IH]; intros acc; simpl; [done|].
  rewrite IH. simpl. by rewrite <-app_assoc.
Qed.

Lemma lstrip_no_space (s : string) :
  Forall (λ c, Py.is_space c = false) (list_ascii_of_string s) → Py.lstrip s = s.
Proof. destruct s as [|c s]; [done|]. simpl. intros [-> _]%Forall_cons. done. Qed.

Lemma strip_no_space (s : string) :
  Forall (λ c, Py.is_space c = false) (list_ascii_of_string s) → Py.strip s = s.
Proof.
  intros Hs. unfold Py.strip. rewrite (lstrip_no_space s Hs).
  rewrite lstrip_no_space by (rewrite list_ascii_of_rev; by apply Forall_rev).
  apply list_ascii_of_string_inj. by rewrite !list_ascii_of_rev, rev_involutive.
Qed.

Lemma string_of_uint_digits (d : Decimal.uint) :
  Forall (λ c, Py.is_space c = false ∧ is_Some (PyParse.digit_of c))
         (list_ascii_of_string (NilEmpty.string_of_uint d)).
Proof. induction d; simpl; constructor; try done; by split; [|eexists]. Qed.

Lemma digits_value_pos (d : Decimal.uint) (acc : positive) :
  PyParse.digits_value (Z.pos acc) (list_ascii_of_string (NilEmpty.string_of_uint d))
  = Some (Z.pos (Pos.of_uint_acc d acc)).
Proof.
  revert acc. induction d; intros acc; [done|..];
    cbn [NilEmpty.string_of_uint list_ascii_of_string PyParse.digits_value Pos.of_uint_acc];
    eval_digit; rewrite <-IHd; f_equal; lia.
Qed.

Lemma digits_value_uint (d : Decimal.uint) :
  PyParse.digits_value 0 (list_ascii_of_string (NilEmpty.string_of_uint d))
  = Some (Z.of_uint d).
Proof.
  unfold Z.of_uint. induction d; [done|..];
    cbn [NilEmpty.string_of_uint list_ascii_of_string PyParse.digits_value Pos.of_uint];
    eval_digit; first [exact IHd | cbn [Z.of_N]; rewrite <-digits_value_pos; f_equal; lia].
Qed.

(** What [str] writes for a natural number: at least one character, all
    of them digits, with the number as their value. *)
Lemma string_of_uint_chars (d : Decimal.uint) :
  ∃ c rest,
    list_ascii_of_string (NilZero.string_of_uint d) = c :: rest
    ∧ Forall (λ c, Py.is_space c = false ∧ is_Some (PyParse.digit_of c)) (c :: rest)
    ∧ PyParse.digits_value 0 (c :: rest) = Some (Z.of_uint d).
Proof.
  destruct d as [|d|d|d|d|d|d|d|d|d|d].
  { exists "0"%char, []. split_and!; try done. repeat constructor. by eexists. }
  - uint_case (string_of_uint_digits (Decimal.D0 d)) (digits_value_uint (Decimal.D0 d)).
  - uint_case (string_of_uint_digits (Decimal.D1 d)) (digits_value_uint (Decimal.D1 d)).
  - uint_case (string_of_uint_digits (Decimal.D2 d)) (digits_value_uint (Decimal.D2 d)).
  - uint_case (string_of_uint_digits (Decimal.D3 d)) (digits_value_uint (Decimal.D3 d)).
  - uint_case (string_of_uint_digits (Decimal.D4 d)) (digits_value_uint (Decimal.D4 d)).
  - uint_case (string_of_uint_digits (Decimal.D5 d)) (digits_value_uint (Decimal.D5 d)).
  - uint_case (string_of_uint_digits (Decimal.D6 d)) (digits_value_uint (Decimal.D6 d)).
  - uint_case (string_of_uint_digits (Decimal.D7 d)) (digits_value_uint (Decimal.D7 d)).
  - uint_case (string_of_uint_digits (Decimal.D8 d)) (digits_value_uint (Decimal.D8 d)).
  - uint_case (string_of_uint_digits (Decimal.D9 d)) (digits_value_uint (Decimal.D9 d)).
Qed.

(** [int(str(n))] is [n]. *)
Lemma int_of_str_of_int (n : Z) : PyParse.int_of_str (Py.str_of_int n) = Some n.
Proof.
  rewrite <-(DecimalZ.of_to n) at 2. unfold Py.str_of_int, PyParse.int_of_str.
  destruct (Z.to_int n) as [d|d]; simpl NilZero.string_of_int;
    destruct (string_of_uint_chars d) as (c & rest & Hchars & Hdigits & Hvalue).
  - rewrite strip_no_space
      by (rewrite Hchars; eapply Forall_impl; [done|]; by intros c' [? _]).
    rewrite Hchars. apply Forall_cons in Hdigits as [[_ [v Hc]] _].
    assert (Ascii.eqb c "-" = false ∧ Ascii.eqb c "+" = false) as [-> ->].
    { split; apply Ascii.eqb_neq; intros ->; done. }
    done.
  - rewrite strip_no_space.
    + simpl. rewrite Hchars, Hvalue. done.
    + simpl. rewrite Hchars. constructor; [done|].
      eapply Forall_impl; [done|]. by intros c' [? _].
Qed.

(** [rsplit] cuts at the last separator. *)
Lemma rsplit_once_last (sep : ascii) (before after : string) :
  sep ∉ list_ascii_of_string after →
  PyParse.rsplit_once sep (before +:+ String sep after) = [before; after].
Proof.
  intros Hafter. unfold PyParse.rsplit_once.
  rewrite list_ascii_of_string_app. simpl list_ascii_of_string.
  rewrite rev_app_distr. simpl rev. rewrite <-app_assoc. simpl app.
  assert (Forall (λ c, negb (Ascii.eqb c sep) = true) (rev (list_ascii_of_string after)))
    as Hother.
  { apply Forall_rev, Forall_forall. intros c Hc. apply negb_true_iff, Ascii.eqb_neq.
    by intros ->. }
  rewrite (drop_while_app _ _ _ sep Hother) by (by rewrite Ascii.eqb_refl).
  rewrite (take_while_app _ _ _ Hother). simpl OsPath.take_while.
  rewrite Ascii.eqb_refl. simpl. rewrite app_nil_r, !rev_involutive.
  by rewrite !string_of_list_ascii_of_string.
Qed.

Lemma rsplit_once_none (sep : ascii) (s : string) :
  sep ∉ list_ascii_of_string s → PyParse.rsplit_once sep s = [s].
Proof.
  intros Hs. unfold PyParse.rsplit_once.
  assert (Forall (λ c, negb (Ascii.eqb c sep) = true) (rev (list_ascii_of_string s)))
    as Hother.
  { apply Forall_rev, Forall_forall. intros c Hc. apply negb_true_iff, Ascii.eqb_neq.
    by intros ->. }
  assert (OsPath.drop_while (λ c, negb (Ascii.eqb c sep)) (rev (list_ascii_of_string s)) = [])
    as ->; [|done].
  induction Hother as [|c l Hc _ IH]; simpl; [done|]. by rewrite Hc.
Qed.

Lemma parse_cluster_parts (cluster_id : Z) (topic_label : string) :
  parse_cluster (topic_label +:+ "_" +:+ Py.str_of_int cluster_id)
  = Some (topic_label, Some cluster_id)
  ∧ PyParse.rsplit_once "_" (topic_label +:+ "_" +:+ Py.str_of_int cluster_id)
    = [topic_label; Py.str_of_int cluster_id].
Proof.
  assert (PyParse.rsplit_once "_" (topic_label +:+ "_" +:+ Py.str_of_int cluster_id)
          = [topic_label; Py.str_of_int cluster_id]) as Hparts.
  { change (topic_label +:+ "_" +:+ Py.str_of_int cluster_id)
      with (topic_label +:+ String "_" (Py.str_of_int cluster_id)).
    apply rsplit_once_last, numeric_no_underscore, str_of_int_numeric. }
  split; [|done]. unfold parse_cluster. by rewrite Hparts, int_of_str_of_int.
Qed.

(** X26.  The name under which [get_graph] and [get_clusters] present a
    cluster is read back by [move_file] as the label and the identifier
    it was built from; a name without an underscore is no cluster name. *)
Theorem parse_cluster_round_trip (cluster_id : Z) (topic_label : string) :
  parse_cluster (topic_label +:+ "_" +:+ Py.str_of_int cluster_id)
  = Some (topic_label, Some cluster_id)
  ∧ ∀ name, Forall (λ c, c ≠ "_"%char) (list_ascii_of_string name) →
            parse_cluster name = None.
Proof.
  split.
  - apply parse_cluster_parts.
  - intros name Hname. unfold parse_cluster. rewrite rsplit_once_none; [done|].
    intros Hin. rewrite Forall_forall in Hname. by apply (Hname _ Hin).
Qed.

(** A request that [move_file] turns down or that ends in an exception
    leaves the whole state as it was. *)
Lemma move_file_failure_is_clean (request : MoveRequest) (s : State) :
  match (move_file request s).1 with
  | Returned (MoveFailed _) | Raised => (move_file request s).2 = s
  | Returned _ => True
  end.
Proof.
  unfold move_file. destruct (rq_filepath request) as [filepath|]; [|done].
  destruct (_ || _); [done|].
  destruct (rq_target_cluster request) as [target_cluster|]; [|done].
  destruct (parse_cluster target_cluster) as [[topic_label [cluster_id|]]|]; [|done..].
  by case_decide.
Qed.

(** X27.  A request to move a file that is on disk into a cluster puts
    the file where the organizer would put it: it is renamed to the
    target path of that cluster, both paths are marked as pending, the
    cluster is recorded under the new path only, and the embedding moves
    with the file. *)
Theorem move_file_moves (filepath topic_label : string) (cluster_id : Z) (s : State) :
  filepath ≠ EmptyString →
  is_Some (disk s !! filepath) →
  filepath ≠ target_path filepath cluster_id topic_label →
  let target := target_path filepath cluster_id topic_label in
  let result := move_file (mkMoveRequest (Some filepath)
                             (Some (topic_label +:+ "_" +:+ Py.str_of_int cluster_id))) s in
  result.1 = Returned (MovedTo target)
  ∧ disk result.2 !! target = disk s !! filepath
  ∧ disk result.2 !! filepath = None
  ∧ FileOps.is_system_operation filepath (file_manager result.2) = true
  ∧ FileOps.is_system_operation target (file_manager result.2) = true
  ∧ dget target (file_clusters result.2) = Some (cluster_id, topic_label)
  ∧ dget filepath (file_clusters result.2) = None
  ∧ dget filepath (file_embeddings result.2) = None
  ∧ (is_Some (dget filepath (file_embeddings s)) →
     dget target (file_embeddings result.2) = dget filepath (file_embeddings s)).
Proof.
  intros Hname [file Hfile] Hmove. cbv zeta.
  set (target := target_path filepath cluster_id topic_label) in *.
  unfold move_file. cbn [rq_filepath rq_target_cluster].
  assert (String.eqb filepath EmptyString = false) as -> by by apply String.eqb_neq.
  assert (exists_on (disk s) filepath = true) as ->.
  { apply bool_decide_eq_true. eauto. }
  cbn [negb orb].
  destruct (parse_cluster_parts cluster_id topic_label) as [-> _].
  rewrite <-folder_name_eq, <-target_path_eq. fold target.
  rewrite decide_True by done.
  set (s1 := with_clusters _ s).
  assert (file_embeddings s1 = file_embeddings s ∧ file_contents s1 = file_contents s
          ∧ disk s1 = disk s ∧ file_manager s1 = file_manager s) as (He1 & Hc1 & Hd1 & Hf1)
    by done.
  set (s2 := if dmem filepath (file_embeddings s1) then _ else s1).
  assert (file_embeddings s2
          = from_option (λ e, dset target e (ddel filepath (file_embeddings s)))
                        (ddel filepath (file_embeddings s))
                        (dget filepath (file_embeddings s))
          ∧ file_clusters s2 = file_clusters s1 ∧ disk s2 = disk s
          ∧ file_manager s2 = file_manager s) as (He2 & Hcl2 & Hd2 & Hf2).
  { subst s2. rewrite He1. destruct (dmem filepath (file_embeddings s)) eqn:Hmem.
    - unfold dpop. done.
    - assert (filepath ∉ keys (file_embeddings s)) as Hout
        by (intros Hin%dmem_true; congruence).
      rewrite (proj2 (dget_None _ _) Hout). simpl. by rewrite ddel_id. }
  set (s3 := if dmem filepath (file_contents s2) then _ else s2).
  assert (file_embeddings s3 = file_embeddings s2 ∧ file_clusters s3 = file_clusters s1
          ∧ disk s3 = disk s ∧ file_manager s3 = file_manager s) as (He3 & Hcl3 & Hd3 & Hf3).
  { subst s3. destruct (dmem filepath (file_contents s2)); [|done]. unfold dpop. done. }
  unfold dpop. rewrite Hcl3. subst s1. cbn [file_clusters with_clusters].
  rewrite dget_dset_eq. cbn [from_option].
  unfold file_manager_safe_move, storage_update_cluster.
  cbn [clock file_manager disk log with_storage with_clusters].
  rewrite Hd3, Hf3. unfold FileOps.safe_move, FileOps.shutil_move.
  rewrite decide_False, Hfile by done.
  cbn [fst snd disk file_manager file_clusters file_embeddings with_fm_disk log
       with_storage with_clusters FileOps.pending_moves FileOps.is_system_operation].
  split_and!; [done| | | | | | | |].
  - by rewrite lookup_insert_eq.
  - by rewrite lookup_insert_ne, lookup_delete_eq.
  - apply bool_decide_eq_true. set_solver.
  - apply bool_decide_eq_true. set_solver.
  - apply dget_dset_eq.
  - rewrite dget_dset_ne by done. apply dget_ddel_eq.
  - rewrite He3, He2. destruct (dget filepath (file_embeddings s)); simpl.
    + rewrite dget_dset_ne by done. apply dget_ddel_eq.
    + apply dget_ddel_eq.
  - intros [emb Hemb]. rewrite He3, He2, Hemb. simpl. apply dget_dset_eq.
Qed.

End MoveFileFacts.


Section MoveFileExamples.
Import Main Scenario.

Lemma move_file_moves_witness :
  let target := target_path b_txt 0 "Neural" in
  let result := move_file (mkMoveRequest (Some b_txt) (Some ("Neural" +:+ "_" +:+ Py.str_of_int 0)))
                          (fresh two_files) in
  b_txt ≠ EmptyString
  ∧ is_Some (disk (fresh two_files) !! b_txt)
  ∧ b_txt ≠ target
  ∧ result.1 = Returned (MovedTo target)
  ∧ disk result.2 !! target = disk (fresh two_files) !! b_txt
  ∧ disk result.2 !! b_txt = None
  ∧ FileOps.is_system_operation b_txt (file_manager result.2) = true
  ∧ FileOps.is_system_operation target (file_manager result.2) = true
  ∧ dget target (file_clusters result.2) = Some (0%Z, "Neural")
  ∧ dget b_txt (file_clusters result.2) = None
  ∧ dget b_txt (file_embeddings result.2) = None
  ∧ (is_Some (dget b_txt (file_embeddings (fresh two_files))) →
     dget target (file_embeddings result.2) = dget b_txt (file_embeddings (fresh two_files))).
Proof.
  cbv zeta.
  assert (b_txt ≠ EmptyString) as Hname by compute_done.
  assert (is_Some (disk (fresh two_files) !! b_txt)) as Hfile by compute_done.
  assert (b_txt ≠ target_path b_txt 0 "Neural") as Hmove by compute_done.
  do 3 (split; [done|]).
  apply (move_file_moves b_txt "Neural" 0 (fresh two_files) Hname Hfile Hmove).
Defined.

End MoveFileExamples.

(** ** The start of the process *)
Section StartupFacts.
Import Main.
Context `{Externals}.




End StartupFacts.
